(** * A shallow embedding of the SBOM background pipeline
    (src/service/sbom/sbom_src.py, src/service/sbom/dx_ctl.py,
     src/api/sbom.py) and proofs of its specified properties.

    Paths are lists of components; strings are Stdlib strings (bytes).
    Effects (files written, status writes, HTTP requests, process
    events) are recorded in explicit traces. *)

From Stdlib Require Import String Ascii List NArith ZArith Bool Lia Arith.
Import ListNotations.
Open Scope string_scope.
Open Scope list_scope.

(* ================================================================= *)
(** ** Strings and paths *)

Definition char_eqb (a b : ascii) : bool := Ascii.eqb a b.

(** [s.startswith(("/", "\\"))] *)
Definition starts_with_sep (s : string) : bool :=
  match s with
  | String c _ => char_eqb c "/"%char || char_eqb c "\"%char
  | EmptyString => false
  end.

(** [c in s] for a single character *)
Fixpoint has_char (c : ascii) (s : string) : bool :=
  match s with
  | EmptyString => false
  | String d s' => char_eqb c d || has_char c s'
  end.

(** [s.split("/")] *)
Fixpoint split_slash (s : string) : list string :=
  match s with
  | EmptyString => [EmptyString]
  | String c rest =>
      if char_eqb c "/"%char then EmptyString :: split_slash rest
      else match split_slash rest with
           | [] => [String c EmptyString]
           | w :: ws => String c w :: ws
           end
  end.

Definition path := list string.

(** pathlib drops empty and "." components when it parses a path. *)
Definition keep_component (c : string) : bool :=
  negb (String.eqb c "") && negb (String.eqb c ".").

Definition components (s : string) : path :=
  filter keep_component (split_slash s).

(** [Path(base) / s]: an absolute [s] replaces the base. *)
Definition path_join (base : path) (s : string) : path :=
  if String.prefix "/" s then components s else base ++ components s.

(** [Path.resolve(strict=False)] on a tree with no symbolic links
    on the way: ".." removes the previous component (and stays at the
    root). *)
Fixpoint norm_aux (stack : list string) (cs : list string) : path :=
  match cs with
  | [] => rev stack
  | c :: cs' =>
      if String.eqb c ".." then norm_aux (tl stack) cs'
      else norm_aux (c :: stack) cs'
  end.

Definition resolve (p : path) : path := norm_aux [] (filter keep_component p).

Fixpoint is_prefix (a b : path) : bool :=
  match a, b with
  | [], _ => true
  | x :: a', y :: b' => String.eqb x y && is_prefix a' b'
  | _ :: _, [] => false
  end.

(** [_is_within_directory]: [commonpath([base, target]) == base] on
    the resolved absolute paths, i.e. [base] is a component prefix. *)
Definition _is_within_directory (base target : path) : bool :=
  is_prefix (resolve base) (resolve target).

(** Python [str] values are held as their UTF-8 encoding, one [string]
    byte per UTF-8 byte; a character is the [string] of its bytes. *)

(** A byte that starts a multi-byte character: the number of
    continuation bytes and the range allowed for the first of them
    (the others lie in 0x80..0xBF). *)
Definition utf8_lead (n : N) : option (nat * N * N) :=
  if (n <? 194)%N then None
  else if (n <=? 223)%N then Some (1, 128%N, 191%N)
  else if (n =? 224)%N then Some (2, 160%N, 191%N)
  else if (n =? 237)%N then Some (2, 128%N, 159%N)
  else if (n <=? 239)%N then Some (2, 128%N, 191%N)
  else if (n =? 240)%N then Some (3, 144%N, 191%N)
  else if (n <=? 243)%N then Some (3, 128%N, 191%N)
  else if (n =? 244)%N then Some (3, 128%N, 143%N)
  else None.

(** A character started by [buf] still missing [k] bytes, the next in
    [lo..hi]. *)
Definition Pending : Type := option (string * nat * N * N).

Definition utf8_start (go : Pending -> list string) (c : ascii) : list string :=
  let n := N_of_ascii c in
  if (n <? 128)%N then String c "" :: go None
  else match utf8_lead n with
       | Some (k, lo, hi) => go (Some (String c "", k, lo, hi))
       | None => go None
       end.

(** [bytes.decode("utf-8", "ignore")]: CPython's decoder drops each
    maximal ill-formed subpart: a byte that cannot start a character, or
    a started character cut short by a byte out of range (read again as
    a start) or by the end of the input. *)
Fixpoint utf8_go (pend : Pending) (s : string) : list string :=
  match s with
  | EmptyString => []
  | String c rest =>
      match pend with
      | Some (buf, k, lo, hi) =>
          if (lo <=? N_of_ascii c)%N && (N_of_ascii c <=? hi)%N then
            if Nat.eqb k 1 then (buf ++ String c "")%string :: utf8_go None rest
            else utf8_go (Some ((buf ++ String c "")%string, k - 1, 128%N, 191%N)) rest
          else utf8_start (fun p => utf8_go p rest) c
      | None => utf8_start (fun p => utf8_go p rest) c
      end
  end.

Definition utf8_decode (s : string) : list string := utf8_go None s.

(** [len(s)] and [s[:n]] of a Python string. *)
Definition py_len (s : string) : nat := length (utf8_decode s).

Definition py_prefix (n : nat) (s : string) : string := String.concat "" (firstn n (utf8_decode s)).

(* ================================================================= *)
(** ** Archive Extractor ([_safe_extract_zip], [_safe_extract_tar],
    [_do_extract] in [extract_archive]) *)

Module Extract.

(** [zipfile.ZipInfo]: name, declared uncompressed size and the
    external attributes (Unix mode in the high 16 bits). *)
Record ZipInfo := mkZipInfo {
  zi_filename : string;
  zi_file_size : N;
  zi_external_attr : Z
}.

Inductive TarType := REGTYPE | DIRTYPE | SYMTYPE | LNKTYPE | OTHERTYPE.

Record TarInfo := mkTarInfo {
  ti_name : string;
  ti_type : TarType;
  ti_size : Z
}.

Definition issym (m : TarInfo) : bool :=
  match ti_type m with SYMTYPE => true | _ => false end.
Definition islnk (m : TarInfo) : bool :=
  match ti_type m with LNKTYPE => true | _ => false end.

Inductive Fmt := FmtZip | FmtTar.

(** One constructor per [return False, ...] of the extractor. *)
Inductive ExtractErr :=
  | ErrTooManyFiles (f : Fmt) (n : nat)      (* "...文件数/成员数 ... 超过限制" *)
  | ErrTooLarge (f : Fmt)                    (* "...总解压体积超过限制" *)
  | ErrAbsolutePath (f : Fmt) (name : string)(* "...包含可疑绝对路径" *)
  | ErrTraversal (f : Fmt) (name : string)   (* "...路径穿越风险" *)
  | ErrLinkMember (name : string)            (* "Tar 包含链接类型成员" *)
  | ErrUnsupported                           (* "不支持的文件类型" *)
  | ErrException (exc : string).             (* "解压失败: {e!r}" of the except clause *)

Inductive ExtractResult := ExtractOk | ExtractFail (e : ExtractErr).

(** [name.startswith(("/", "\\")) or ":" in name] *)
Definition suspicious_abs (name : string) : bool :=
  starts_with_sep name || has_char ":"%char name.

(** The loop of [_safe_extract_zip] over [infos]. *)
Fixpoint zip_loop (max_size : Z) (extract_dir : path) (total_size : Z)
    (infos : list ZipInfo) : ExtractResult :=
  match infos with
  | [] => ExtractOk
  | info :: rest =>
      let total_size := (total_size + Z.of_N (zi_file_size info))%Z in
      if (total_size >? max_size)%Z then ExtractFail (ErrTooLarge FmtZip)
      else
        let name := zi_filename info in
        if suspicious_abs name then ExtractFail (ErrAbsolutePath FmtZip name)
        else if negb (_is_within_directory extract_dir (path_join extract_dir name))
        then ExtractFail (ErrTraversal FmtZip name)
        else zip_loop max_size extract_dir total_size rest
  end.

Definition _safe_extract_zip (max_files max_size : Z) (extract_dir : path)
    (infos : list ZipInfo) : ExtractResult :=
  let total_files := length infos in
  if (Z.of_nat total_files >? max_files)%Z
  then ExtractFail (ErrTooManyFiles FmtZip total_files)
  else zip_loop max_size extract_dir 0%Z infos.

(** The loop of [_safe_extract_tar] over [members]. *)
Fixpoint tar_loop (max_size : Z) (extract_dir : path) (total_size : Z)
    (members : list TarInfo) : ExtractResult :=
  match members with
  | [] => ExtractOk
  | m :: rest =>
      let name := ti_name m in
      if suspicious_abs name then ExtractFail (ErrAbsolutePath FmtTar name)
      else if issym m || islnk m then ExtractFail (ErrLinkMember name)
      else
        let total_size := (total_size + Z.max 0 (ti_size m))%Z in
        if (total_size >? max_size)%Z then ExtractFail (ErrTooLarge FmtTar)
        else if negb (_is_within_directory extract_dir (path_join extract_dir name))
        then ExtractFail (ErrTraversal FmtTar name)
        else tar_loop max_size extract_dir total_size rest
  end.

Definition _safe_extract_tar (max_files max_size : Z) (extract_dir : path)
    (members : list TarInfo) : ExtractResult :=
  let total_files := length members in
  if (Z.of_nat total_files >? max_files)%Z
  then ExtractFail (ErrTooManyFiles FmtTar total_files)
  else tar_loop max_size extract_dir 0%Z members.

(** The archive as [tarfile.is_tarfile] / [zipfile.is_zipfile] see it. *)
Inductive ArchiveFile :=
  | TarArchive (members : list TarInfo)
  | ZipArchive (infos : list ZipInfo)
  | OtherFile.

(** What [extractall] does once the checks passed: it writes the members
    in archive order and either completes or raises after the first [k]
    of them were written (an existing file in the way of a directory, a
    name the OS refuses, a full disk, ...). *)
Inductive ExtractallRun := ExtractallDone | ExtractallRaised (k : nat) (exc : string).

(** [ZipFile._extract_member]: the member name split at "/", with the
    empty, "." and ".." components dropped. *)
Definition zip_arcname (name : string) : path :=
  filter (fun c => negb (String.eqb c "") && negb (String.eqb c ".") && negb (String.eqb c ".."))
    (split_slash name).

(** Where [extractall] writes each member: [tarfile] at
    [extract_dir / name] as the OS resolves it, [zipfile] at
    [normpath(extract_dir / arcname)]. The directories created on the way
    are not listed. *)
Definition extractall_paths (extract_dir : path) (a : ArchiveFile) : list path :=
  match a with
  | TarArchive ms => map (fun m => resolve (path_join extract_dir (ti_name m))) ms
  | ZipArchive is => map (fun i => resolve (extract_dir ++ zip_arcname (zi_filename i))) is
  | OtherFile => []
  end.

(** [_do_extract]: format detection (tar first), the safe extractor,
    then [extractall] ([run]); an exception [extractall] raises is caught
    by the [except Exception] and gives [(False, "解压失败: ...")]. The
    paths are the files written (none when a check fails). [mkdir] and
    the reading of the member list are taken to succeed. *)
Definition _do_extract (max_files max_size : Z) (extract_dir : path)
    (a : ArchiveFile) (run : ExtractallRun) : ExtractResult * list path :=
  let r := match a with
           | TarArchive ms => _safe_extract_tar max_files max_size extract_dir ms
           | ZipArchive is => _safe_extract_zip max_files max_size extract_dir is
           | OtherFile => ExtractFail ErrUnsupported
           end in
  match r with
  | ExtractOk =>
      match run with
      | ExtractallDone => (ExtractOk, extractall_paths extract_dir a)
      | ExtractallRaised k exc =>
          (ExtractFail (ErrException exc), firstn k (extractall_paths extract_dir a))
      end
  | ExtractFail e => (ExtractFail e, [])
  end.

(** The claims' vocabulary, from the spec's words. *)

Definition member_names (a : ArchiveFile) : list string :=
  match a with
  | TarArchive ms => map ti_name ms
  | ZipArchive is => map zi_filename is
  | OtherFile => []
  end.

(** A member "whose name is an absolute path, contains a drive-letter
    separator, or whose resolved location falls outside [dest]". *)
Definition member_escapes (dest : path) (name : string) : bool :=
  starts_with_sep name || has_char ":"%char name
  || negb (_is_within_directory dest (path_join dest name)).

(** Declared uncompressed sizes as the extractor counts them. *)
Definition declared_sizes (a : ArchiveFile) : list Z :=
  match a with
  | TarArchive ms => map (fun m => Z.max 0 (ti_size m)) ms
  | ZipArchive is => map (fun i => Z.of_N (zi_file_size i)) is
  | OtherFile => []
  end.

Definition total_declared_size (a : ArchiveFile) : Z :=
  fold_right Z.add 0%Z (declared_sizes a).

Definition tar_link (m : TarInfo) : bool := issym m || islnk m.

(** A zip member stored as a symbolic link: Unix mode S_IFLNK (0o120000)
    under the file-type mask S_IFMT (0o170000) in the high 16 bits. *)
Definition zip_is_symlink (i : ZipInfo) : bool :=
  Z.eqb (Z.land (Z.shiftr (zi_external_attr i) 16) 61440) 40960.

Definition has_link_member (a : ArchiveFile) : bool :=
  match a with
  | TarArchive ms => existsb tar_link ms
  | ZipArchive is => existsb zip_is_symlink is
  | OtherFile => false
  end.

(** A tar-family archive with a symbolic or hard-link member. *)
Definition tar_has_link (a : ArchiveFile) : bool :=
  match a with
  | TarArchive ms => existsb tar_link ms
  | _ => false
  end.

(** A tar member that passes every per-member check. *)
Definition tar_member_clean (dest : path) (m : TarInfo) : bool :=
  negb (suspicious_abs (ti_name m)) && negb (tar_link m)
  && _is_within_directory dest (path_join dest (ti_name m)).

Definition is_path_err (e : ExtractErr) : bool :=
  match e with ErrAbsolutePath _ _ | ErrTraversal _ _ => true | _ => false end.

Definition is_quota_err (e : ExtractErr) : bool :=
  match e with ErrTooManyFiles _ _ | ErrTooLarge _ => true | _ => false end.

Definition is_link_err (e : ExtractErr) : bool :=
  match e with ErrLinkMember _ => true | _ => false end.

End Extract.

(* ================================================================= *)
(** ** Command Registry ([build_bom_command] and the [_build_*_bom]
    strategies) *)

Module Registry.

(** [BomCommand] (frozen dataclass). *)
Record BomCommand := mkBomCommand {
  args : list string;
  cwd : string;
  output : string;
  tool : string;
  pre_args : option (list string)
}.

(** What the strategies observe of the host: [_which] (with the
    subprocess PATH), [sys.executable], and [(project_root / name).exists()]. *)
Record Host := mkHost {
  which : string -> option string;
  sys_executable : string;
  exists_in_root : string -> bool
}.

Definition slash (root name : string) : string := (root ++ "/" ++ name)%string.

(** Python truthiness of [str | None]. *)
Definition truthy (o : option string) : bool :=
  match o with Some s => negb (String.eqb s "") | None => false end.

Definition PYTHON_REQUIREMENT_CANDIDATES : list string :=
  ["requirements.txt"; "requirement.txt"; "requirements-dev.txt";
   "requirements-prod.txt"; "requirements-test.txt"].

Definition C_CPP_BUILD_METADATA : list string :=
  ["CMakeLists.txt"; "Makefile"; "makefile"; "compile_commands.json";
   "conanfile.txt"; "conanfile.py"; "vcpkg.json"; "meson.build"].

Fixpoint _pick_first_existing (h : Host) (candidates : list string) : option string :=
  match candidates with
  | [] => None
  | name :: rest => if exists_in_root h name then Some name else _pick_first_existing h rest
  end.

Section Strategies.
Variable h : Host.
Variable dx_uuid : string.
Variable project_root : string.

Definition output_path : string := slash project_root (dx_uuid ++ ".json")%string.

Definition _build_python_bom : option BomCommand :=
  let py := sys_executable h in
  match _pick_first_existing h PYTHON_REQUIREMENT_CANDIDATES with
  | Some req =>
      if negb (String.eqb req "") then
        Some (mkBomCommand [py; "-m"; "cyclonedx_py"; "requirements"; req; "-o"; output_path]
                project_root output_path "cyclonedx-py" None)
      else None
  | None =>
      if exists_in_root h "pyproject.toml" then
        Some (mkBomCommand [py; "-m"; "cyclonedx_py"; "pyproject"; "pyproject.toml"; "-o"; output_path]
                project_root output_path "cyclonedx-py" None)
      else None
  end.

Definition _build_golang_bom : option BomCommand :=
  let gomod := which h "cyclonedx-gomod" in
  if negb (truthy gomod) || negb (exists_in_root h "go.mod") then None
  else
    let g := match gomod with Some g => g | None => "" end in
    Some (mkBomCommand [g; "mod"; "-json"; "-output"; output_path]
            project_root output_path "cyclonedx-gomod" None).

Definition _build_php_bom : option BomCommand :=
  let composer := which h "composer" in
  if negb (truthy composer) || negb (exists_in_root h "composer.json") then None
  else
    let c := match composer with Some c => c | None => "" end in
    let pre := if exists_in_root h "composer.lock"
               then [c; "install"; "--no-interaction"; "--no-progress"]
               else [c; "update"; "--no-interaction"; "--no-progress"] in
    Some (mkBomCommand [c; "CycloneDX:make-sbom"; "--output-format=JSON";
                        ("--output-file=" ++ output_path)%string]
            project_root output_path "composer+cyclonedx" (Some pre)).

Definition _build_javascript_bom : option BomCommand :=
  let npm := which h "cyclonedx-npm" in
  if negb (truthy npm) || negb (exists_in_root h "package.json") then None
  else
    let n := match npm with Some n => n | None => "" end in
    Some (mkBomCommand [n; "package.json"; "--output-format=JSON"; "--output-file"; output_path]
            project_root output_path "cyclonedx-npm" None).

Definition _build_rust_bom : option BomCommand :=
  let cargo := which h "cargo" in
  let cargo_cyclonedx := which h "cargo-cyclonedx" in
  if negb (truthy cargo) || negb (truthy cargo_cyclonedx)
     || negb (exists_in_root h "Cargo.toml") then None
  else
    let c := match cargo with Some c => c | None => "" end in
    Some (mkBomCommand [c; "cyclonedx"; "-f=json"; ("--override-filename=" ++ dx_uuid)%string;
                        "--workspace"; "--all"]
            project_root output_path "cargo-cyclonedx" None).

Definition _build_java_bom : option BomCommand :=
  let cdxgen := which h "cdxgen" in
  if negb (truthy cdxgen) then None
  else
    let c := match cdxgen with Some c => c | None => "" end in
    Some (mkBomCommand [c; "-t"; "java"; "-o"; output_path; "--spec-version"; "1.6"]
            project_root output_path "cdxgen" None).

(** The [has_metadata] probe only feeds a log line. *)
Definition _build_c_cpp_bom : option BomCommand :=
  let cdxgen := which h "cdxgen" in
  if negb (truthy cdxgen) then None
  else
    let c := match cdxgen with Some c => c | None => "" end in
    Some (mkBomCommand [c; "-t"; "c"; "-o"; output_path; "--spec-version"; "1.6"]
            project_root output_path "cdxgen" None).

End Strategies.

(** [str.lower()] and [str.strip()] on ASCII text. *)
Definition lower_char (c : ascii) : ascii :=
  let n := nat_of_ascii c in
  if Nat.leb 65 n && Nat.leb n 90 then ascii_of_nat (n + 32) else c.

Fixpoint lower (s : string) : string :=
  match s with
  | EmptyString => EmptyString
  | String c s' => String (lower_char c) (lower s')
  end.

Definition is_space (c : ascii) : bool :=
  let n := nat_of_ascii c in Nat.eqb n 32 || (Nat.leb 9 n && Nat.leb n 13).

Fixpoint lstrip (s : string) : string :=
  match s with
  | String c s' => if is_space c then lstrip s' else s
  | EmptyString => EmptyString
  end.

Definition rev_string (s : string) : string :=
  string_of_list_ascii (rev (list_ascii_of_string s)).

Definition strip (s : string) : string := rev_string (lstrip (rev_string (lstrip s))).

Definition which_map (h : Host) : list (string * option string) :=
  [("python", Some (sys_executable h));
   ("cyclonedx-py", which h "cyclonedx-py");
   ("cyclonedx-gomod", which h "cyclonedx-gomod");
   ("composer", which h "composer");
   ("cyclonedx-npm", which h "cyclonedx-npm");
   ("cargo", which h "cargo");
   ("cargo-cyclonedx", which h "cargo-cyclonedx");
   ("cdxgen", which h "cdxgen")].

Definition build_bom_command (h : Host) (code_language dx_uuid project_root : string)
    : option BomCommand * list (string * option string) :=
  let lang := strip (lower code_language) in
  let wm := which_map h in
  let r :=
    if String.eqb lang "python" then _build_python_bom h dx_uuid project_root
    else if String.eqb lang "golang" || String.eqb lang "go" then _build_golang_bom h dx_uuid project_root
    else if String.eqb lang "php" then _build_php_bom h dx_uuid project_root
    else if String.eqb lang "javascript" || String.eqb lang "node" || String.eqb lang "nodejs"
    then _build_javascript_bom h dx_uuid project_root
    else if String.eqb lang "rust" then _build_rust_bom h dx_uuid project_root
    else if String.eqb lang "java" then _build_java_bom h dx_uuid project_root
    else if String.eqb lang "c/c++" || String.eqb lang "c" || String.eqb lang "cpp"
    then _build_c_cpp_bom h dx_uuid project_root
    else None in
  (r, wm).

(** The preconditions each strategy actually checks (read off the
    strategies above): Python checks only for a manifest, Java and C/C++
    only for [cdxgen], the others for both tool and manifest. *)
Definition checked_preconditions (h : Host) (lang : string) : bool :=
  if String.eqb lang "python" then
    match _pick_first_existing h PYTHON_REQUIREMENT_CANDIDATES with
    | Some _ => true
    | None => exists_in_root h "pyproject.toml"
    end
  else if String.eqb lang "golang" || String.eqb lang "go" then
    truthy (which h "cyclonedx-gomod") && exists_in_root h "go.mod"
  else if String.eqb lang "php" then
    truthy (which h "composer") && exists_in_root h "composer.json"
  else if String.eqb lang "javascript" || String.eqb lang "node" || String.eqb lang "nodejs" then
    truthy (which h "cyclonedx-npm") && exists_in_root h "package.json"
  else if String.eqb lang "rust" then
    truthy (which h "cargo") && truthy (which h "cargo-cyclonedx") && exists_in_root h "Cargo.toml"
  else if String.eqb lang "java" then truthy (which h "cdxgen")
  else if String.eqb lang "c/c++" || String.eqb lang "c" || String.eqb lang "cpp" then
    truthy (which h "cdxgen")
  else false.

End Registry.

(* ================================================================= *)
(** ** Process Supervisor ([_stream_reader], [run_command_logged]) *)

Module Supervisor.

(** The child process as the supervisor observes it: when it exits
    (milliseconds after spawn; [None] if it never exits by itself), its
    exit status, and for each pipe the bytes the successive
    [stream.read(4096)] calls return, up to the empty read at EOF. *)
Record Proc := mkProc {
  p_runtime_ms : option nat;
  p_returncode : Z;
  p_stdout : list string;
  p_stderr : list string
}.

(** Outcome of [asyncio.create_subprocess_exec]. *)
Inductive Spawn :=
  | Spawned (p : Proc)
  | SpawnFileNotFound (err : string)   (* FileNotFoundError *)
  | SpawnError (err : string).         (* any other exception *)

Inductive StreamName := Stdout | Stderr.

(** Observable steps of one supervised run, in order. *)
Inductive Event :=
  | EvSpawn                          (* create_subprocess_exec *)
  | EvStartReader (s : StreamName)   (* asyncio.create_task(_stream_reader ...) *)
  | EvExited                         (* wait_for(proc.wait()) completed *)
  | EvKill                           (* proc.kill() *)
  | EvWaitKilled                     (* await proc.wait() after kill *)
  | EvAwaitReader (s : StreamName).  (* await stdout_task / stderr_task *)

Record CmdResult := mkCmdResult {
  returncode : Z;
  stdout : string;
  stderr : string;
  duration_ms : nat
}.

(** [_stream_reader]: each chunk is decoded on its own with
    [decode("utf-8", "ignore")], and at most [max_capture_chars]
    characters of the decoded text are kept; an empty read is EOF. *)
Fixpoint _stream_reader (max_capture_chars captured : nat) (chunks : list string) : string :=
  match chunks with
  | [] => ""
  | chunk :: rest =>
      if String.eqb chunk "" then ""
      else
        let text := utf8_decode chunk in
        if Nat.ltb captured max_capture_chars then
          let piece := firstn (max_capture_chars - captured) text in
          (String.concat "" piece
           ++ _stream_reader max_capture_chars (captured + length piece) rest)%string
        else _stream_reader max_capture_chars captured rest
  end.

Definition run_command_logged (timeout_sec max_capture_chars : nat) (sp : Spawn)
    : CmdResult * list Event :=
  match sp with
  | SpawnFileNotFound e => (mkCmdResult 127 "" ("NOT_FOUND: " ++ e) 0, [])
  | SpawnError e => (mkCmdResult 1 "" e 0, [])
  | Spawned p =>
      let started := [EvSpawn; EvStartReader Stdout; EvStartReader Stderr] in
      let limit := timeout_sec * 1000 in
      let timed_out :=
        (mkCmdResult 124 "" "TIMEOUT" limit, started ++ [EvKill; EvWaitKilled]) in
      match p_runtime_ms p with
      | Some t =>
          if Nat.leb t limit then
            let stdout_text := _stream_reader max_capture_chars 0 (p_stdout p) in
            let stderr_text := _stream_reader max_capture_chars 0 (p_stderr p) in
            (mkCmdResult (p_returncode p) stdout_text stderr_text t,
             started ++ [EvExited; EvAwaitReader Stdout; EvAwaitReader Stderr])
          else timed_out
      | None => timed_out
      end
  end.

(** "The runtime exceeds the timeout". *)
Definition exceeds_timeout (timeout_sec : nat) (p : Proc) : Prop :=
  match p_runtime_ms p with
  | Some t => timeout_sec * 1000 < t
  | None => True
  end.

End Supervisor.

(* ================================================================= *)
(** ** Upload Client ([dx_ctl.create_project], [delete_project],
    [update_project_bom]) *)

Module DxCtl.

(** An HTTP response: status, body text, and the ["uuid"] field of its
    JSON body. *)
Record Response := mkResponse {
  status_code : nat;
  text : string;
  json_uuid : option string
}.

(** The tracking service answers the [i]-th request of a call with
    [srv i]. *)
Definition Server := nat -> Response.

Inductive HttpEvent := HttpPut | HttpDelete | HttpPost | Sleep1s.

(** A call either returns or raises [BusinessException(msg)]. *)
Inductive Outcome (A : Type) := Ret (a : A) | Raise (msg : string).
Arguments Ret {A} a.
Arguments Raise {A} msg.

(** [str(n)] for a natural number. *)
Fixpoint digits_aux (fuel n : nat) (acc : string) : string :=
  match fuel with
  | 0 => acc
  | S f =>
      let acc' := String (ascii_of_nat (48 + n mod 10)) acc in
      if Nat.ltb n 10 then acc' else digits_aux f (n / 10) acc'
  end.

Definition string_of_nat (n : nat) : string := digits_aux (S n) n "".

(** [_err_of]: status and the first 2000 characters of the body. *)
Definition _err_of (r : Response) : string :=
  (string_of_nat (status_code r) ++ ": " ++ py_prefix 2000 (text r))%string.

Definition or_unknown (last_err : option string) : string :=
  match last_err with
  | Some e => if String.eqb e "" then "unknown" else e
  | None => "unknown"
  end.

(** The [for _ in range(3)] loop of [create_project]: [n] attempts left,
    the next request is the [i]-th. *)
Fixpoint create_attempts (srv : Server) (i n : nat) (last_err : option string)
    : Outcome string * list HttpEvent :=
  match n with
  | 0 => (Raise ("DX_CREATE_PROJECT_FAILED: " ++ or_unknown last_err)%string, [])
  | S n' =>
      let r := srv i in
      if Nat.eqb (status_code r) 201 then
        match json_uuid r with
        | Some u => if String.eqb u "" then (Raise "DX 返回 201 但 uuid 为空", [HttpPut])
                    else (Ret u, [HttpPut])
        | None => (Raise "DX 返回 201 但 uuid 为空", [HttpPut])
        end
      else
        let '(o, evs) := create_attempts srv (S i) n' (Some (_err_of r)) in
        (o, HttpPut :: Sleep1s :: evs)
  end.

Definition create_project (srv : Server) : Outcome string * list HttpEvent :=
  create_attempts srv 0 3 None.

Definition delete_ok (code : nat) : bool :=
  Nat.eqb code 200 || Nat.eqb code 202 || Nat.eqb code 204 || Nat.eqb code 404.

Fixpoint delete_attempts (srv : Server) (i n : nat) (last_err : option string)
    : Outcome bool * list HttpEvent :=
  match n with
  | 0 => (Raise ("DX_DELETE_PROJECT_FAILED: " ++ or_unknown last_err)%string, [])
  | S n' =>
      let r := srv i in
      if delete_ok (status_code r) then (Ret true, [HttpDelete])
      else
        let '(o, evs) := delete_attempts srv (S i) n' (Some (_err_of r)) in
        (o, HttpDelete :: Sleep1s :: evs)
  end.

Definition delete_project (srv : Server) : Outcome bool * list HttpEvent :=
  delete_attempts srv 0 3 None.

(** [update_project_bom]: [file_exists = false] is [open(file_path)]
    raising FileNotFoundError, which gives [False]; the other exceptions
    of [open] and of the POST propagate (see [Pipeline.update_project_bom]). *)
Definition update_project_bom (file_exists : bool) (srv : Server)
    : Outcome bool * list HttpEvent :=
  if file_exists then
    let r := srv 0 in
    (Ret (Nat.eqb (status_code r) 200 || Nat.eqb (status_code r) 201), [HttpPost])
  else (Ret false, []).

End DxCtl.

(* ================================================================= *)
(** ** Project Root Locator ([_score_root_candidate],
    [_detect_project_root]) *)

Module RootLocator.

(** The filesystem as the locator queries it: [Path.resolve],
    [exists()], [is_dir()] and the names [iterdir()] yields ([None] when
    it raises). *)
Record FS := mkFS {
  fs_resolve : path -> path;
  fs_exists : path -> bool;
  fs_is_dir : path -> bool;
  fs_list_dir : path -> option (list string)
}.

Definition ROOT_HINT_FILES : list string :=
  ["requirements.txt"; "requirement.txt"; "pyproject.toml"; "setup.py"; "setup.cfg"; "Pipfile";
   "package.json"; "pnpm-lock.yaml"; "yarn.lock"; "package-lock.json";
   "go.mod";
   "Cargo.toml";
   "pom.xml"; "build.gradle"; "build.gradle.kts"; "settings.gradle"; "settings.gradle.kts";
   "composer.json";
   "CMakeLists.txt"; "Makefile"; "makefile"; "meson.build"; "vcpkg.json"; "conanfile.py";
   "conanfile.txt"].

Definition SKIPPED_DIRS : list string :=
  [".git"; ".svn"; "node_modules"; ".venv"; "venv"; "__pycache__"; "target"; "dist"; "build"].

Definition path_eqb (a b : path) : bool :=
  if list_eq_dec string_dec a b then true else false.

Section Locator.
Variable fs : FS.

Definition _score_root_candidate (dirpath : path) : Z :=
  if negb (fs_is_dir fs dirpath) then (-1)%Z
  else
    let score := fold_left
                   (fun acc name => if fs_exists fs (path_join dirpath name) then (acc + 2)%Z else acc)
                   ROOT_HINT_FILES 0%Z in
    let score := if fs_is_dir fs (path_join dirpath "src") then (score + 1)%Z else score in
    if fs_is_dir fs (path_join dirpath "app") then (score + 1)%Z else score.

(** The directory children [cur.iterdir()] contributes to the frontier. *)
Definition child_kept (cur : path) (name : string) : bool :=
  fs_is_dir fs (cur ++ [name]) && negb (existsb (String.eqb name) SKIPPED_DIRS).

Definition children (cur : path) : list path :=
  match fs_list_dir fs cur with
  | None => []
  | Some names => map (fun n => cur ++ [n]) (filter (child_kept cur) names)
  end.

Variable MAX_ROOT_DETECT_DEPTH : Z.

(** The [while frontier:] loop; [fuel] only bounds the recursion
    ([root_fuel] below always suffices). *)
Fixpoint bfs (fuel : nat) (frontier : list (path * nat)) (seen : list path)
    (best : path) (best_score : Z) : option path :=
  match fuel with
  | 0 => None
  | S fuel' =>
      match frontier with
      | [] => Some best
      | (cur, depth) :: frontier' =>
          if existsb (path_eqb cur) seen then bfs fuel' frontier' seen best best_score
          else
            let seen := cur :: seen in
            if (Z.of_nat depth >? MAX_ROOT_DETECT_DEPTH)%Z
            then bfs fuel' frontier' seen best best_score
            else
              let score := _score_root_candidate cur in
              let '(best, best_score) :=
                if (score >? best_score)%Z then (cur, score) else (best, best_score) in
              bfs fuel' (frontier' ++ map (fun c => (c, S depth)) (children cur))
                  seen best best_score
      end
  end.

(** Levels still expanded below a node at [depth]. *)
Definition levels (depth : nat) : nat := Z.to_nat (MAX_ROOT_DETECT_DEPTH + 1 - Z.of_nat depth).

(** Number of frontier entries a node at [k] remaining levels can
    produce, itself included. *)
Fixpoint subtree_count (k : nat) (p : path) : nat :=
  match k with
  | 0 => 1
  | S k' => 1 + fold_right Nat.add 0 (map (subtree_count k') (children p))
  end.

Definition root_fuel (extract_dir : path) : nat := S (subtree_count (levels 0) extract_dir).

(** [if hint: p = extract_dir / hint; if p.exists() and p.is_dir()]. *)
Definition hint_hit (extract_dir : path) (hint : option string) : bool :=
  match hint with
  | Some h => negb (String.eqb h "") && fs_exists fs (path_join extract_dir h)
              && fs_is_dir fs (path_join extract_dir h)
  | None => false
  end.

Definition _detect_project_root (extract_dir : path) (hint : option string) : option path :=
  let extract_dir := fs_resolve fs extract_dir in
  match hint with
  | Some h =>
      if hint_hit extract_dir hint then Some (path_join extract_dir h)
      else bfs (root_fuel extract_dir) [(extract_dir, 0)] [] extract_dir
               (_score_root_candidate extract_dir)
  | None =>
      bfs (root_fuel extract_dir) [(extract_dir, 0)] [] extract_dir
          (_score_root_candidate extract_dir)
  end.

(** Directories the scan may score: [extract_dir] at depth 0 and every
    kept child of a directory at a depth within the bound. *)
Inductive reach (d : path) : path -> nat -> Prop :=
  | reach_root : reach d d 0
  | reach_child p k c :
      reach d p k -> (Z.of_nat k <= MAX_ROOT_DETECT_DEPTH)%Z ->
      In c (children p) -> reach d c (S k).

Definition scored (d p : path) (k : nat) : Prop :=
  reach d p k /\ (Z.of_nat k <= MAX_ROOT_DETECT_DEPTH)%Z.

End Locator.

End RootLocator.

(* ================================================================= *)
(** ** Pipeline ([extract_archive], [make_dx_bom], [main], and the
    background-task wrapper [_spawn] of the upload endpoint) *)

Module Pipeline.
Import DxCtl.

(** What the pipeline leaves behind, in order: the status rows it
    persists through [_update_status], the commands it runs, and the
    calls of [dx_ctl.update_project_bom]. *)
Inductive Step :=
  | WriteStatus (status : Z) (error_message : option string)
  | RunCommand (args : list string)
  | UploadBom (file_path : string).

(** What [open(file_path, "rb")] does. *)
Inductive OpenResult := Opened | OpenFileNotFound | OpenRaises (exc : string).

(** The environment one run meets. A call that can raise is an
    [Outcome]; [Raise e] is the exception it raises. *)
Record World := mkWorld {
  (* [_update_status(status=s)] raises (database error) *)
  w_db_raises : Z -> option string;
  (* the body of the [try] in [_do_extract] (mkdir, tar or zip extraction) *)
  w_do_extract : Outcome (bool * option string);
  (* [_detect_project_root] in [make_dx_bom], and the second call in [main] *)
  w_detect : Outcome path;
  w_redetect : Outcome path;
  (* [Path(s).exists()] *)
  w_exists : string -> Outcome bool;
  (* what the command strategies observe for a project root *)
  w_host : path -> Registry.Host;
  (* [asyncio.create_subprocess_exec] on the arguments *)
  w_spawn : list string -> Supervisor.Spawn;
  (* [open(file_path, "rb")] *)
  w_open : string -> OpenResult;
  (* the POST of [update_project_bom]: a transport exception, or the answers *)
  w_post_raises : option string;
  w_dx : Server
}.

(** [str(Path)] of an absolute path, and [Path(s).name]. *)
Definition path_str (p : path) : string :=
  fold_right (fun c acc => ("/" ++ c ++ acc)%string) "" p.

Definition path_name (s : string) : string := last (components s) "".

(** [str(rc)] *)
Definition str_Z (z : Z) : string :=
  if (z <? 0)%Z then ("-" ++ string_of_nat (Z.abs_nat z))%string else string_of_nat (Z.to_nat z).

(** A computation over the trace that returns or raises. *)
Definition PM (A : Type) : Type := list Step -> Outcome A * list Step.

Definition ret {A} (a : A) : PM A := fun tr => (Ret a, tr).

Definition lift {A} (o : Outcome A) : PM A := fun tr => (o, tr).

Definition bind {A B} (m : PM A) (k : A -> PM B) : PM B :=
  fun tr => match m tr with
            | (Ret a, tr') => k a tr'
            | (Raise e, tr') => (Raise e, tr')
            end.

Notation "x <- m ;; k" := (bind m (fun x => k))
  (at level 61, m at next level, right associativity).

Section Run.
Variable CMD_TIMEOUT_SEC : nat.
Variable MAX_CAPTURE_CHARS : nat.
Variable w : World.

Definition _update_status (status : Z) (error_message : option string) : PM unit :=
  fun tr => match w_db_raises w status with
            | Some e => (Raise e, tr)
            | None => (Ret tt, tr ++ [WriteStatus status error_message])
            end.

(** [run_command_logged] never raises: whatever happens becomes a
    return code. *)
Definition run_command (args : list string) : PM Supervisor.CmdResult :=
  fun tr => (Ret (fst (Supervisor.run_command_logged CMD_TIMEOUT_SEC MAX_CAPTURE_CHARS
                         (w_spawn w args))),
             tr ++ [RunCommand args]).

(** [_do_extract]: its [except Exception] turns any exception into
    [(False, "解压失败: ...")]. *)
Definition _do_extract : bool * option string :=
  match w_do_extract w with
  | Ret r => r
  | Raise e => (false, Some ("解压失败: " ++ e)%string)
  end.

Definition extract_archive : PM bool :=
  _ <- _update_status 1 None ;;
  let '(ok, err) := _do_extract in
  if ok then ret true
  else (_ <- _update_status (-1) err ;; ret false).

Definition cmd_failed_msg (prefix : string) (res : Supervisor.CmdResult) : string :=
  (prefix ++ "(rc=" ++ str_Z (Supervisor.returncode res) ++ "): "
   ++ py_prefix MAX_CAPTURE_CHARS (Supervisor.stderr res))%string.

(** [if bom_cmd.pre_args:] ... ; [true] when the main command may run. *)
Definition run_pre (pre : option (list string)) : PM bool :=
  match pre with
  | Some ((_ :: _) as pre_args) =>
      pre_res <- run_command pre_args ;;
      if negb (Supervisor.returncode pre_res =? 0)%Z then
        _ <- _update_status (-1) (Some (cmd_failed_msg "前置命令失败" pre_res)) ;; ret false
      else ret true
  | _ => ret true
  end.

(** The log lines, with their directory listing and manifest probes,
    are left out. *)
Definition make_dx_bom (code_language dx_uuid : string) : PM (option string) :=
  _ <- _update_status 2 None ;;
  project_root <- lift (w_detect w) ;;
  root_exists <- lift (w_exists w (path_str project_root)) ;;
  if negb root_exists then
    _ <- _update_status (-1) (Some "项目根目录不存在") ;; ret None
  else
    match fst (Registry.build_bom_command (w_host w project_root) code_language dx_uuid
                 (path_str project_root)) with
    | None =>
        _ <- _update_status (-1)
               (Some "无法构建SBOM命令：缺少清单文件/工具未安装或不在PATH") ;; ret None
    | Some bom_cmd =>
        pre_ok <- run_pre (Registry.pre_args bom_cmd) ;;
        if negb pre_ok then ret None
        else
          res <- run_command (Registry.args bom_cmd) ;;
          if negb (Supervisor.returncode res =? 0)%Z then
            _ <- _update_status (-1) (Some (cmd_failed_msg "生成bom失败" res)) ;; ret None
          else
            out_exists <- lift (w_exists w (Registry.output bom_cmd)) ;;
            if negb out_exists then
              _ <- _update_status (-1)
                     (Some "生成bom失败：命令执行成功但未发现输出文件") ;; ret None
            else ret (Some (path_name (Registry.output bom_cmd)))
    end.

(** [dx_ctl.update_project_bom(project_uuid, file_path)]: its
    [except FileNotFoundError] turns a missing file into [False]; any
    other exception of [open] or of the POST propagates. *)
Definition update_project_bom (file_path : string) : PM bool :=
  fun tr =>
    let tr := tr ++ [UploadBom file_path] in
    match w_open w file_path with
    | OpenFileNotFound => (Ret false, tr)
    | OpenRaises e => (Raise e, tr)
    | Opened =>
        match w_post_raises w with
        | Some e => (Raise e, tr)
        | None => (Ret (match fst (DxCtl.update_project_bom true (w_dx w)) with
                        | Ret b => b
                        | Raise _ => false
                        end), tr)
        end
    end.

(** [main]: no [try] of its own. *)
Definition main (code_language dx_uuid : string) : PM bool :=
  ok <- extract_archive ;;
  if negb ok then ret false
  else
    bom_json_name <- make_dx_bom code_language dx_uuid ;;
    match bom_json_name with
    | None => ret false
    | Some name =>
        if String.eqb name "" then ret false
        else
          project_root <- lift (w_redetect w) ;;
          let bom_path := path_str (path_join project_root name) in
          flag <- update_project_bom bom_path ;;
          if flag then (_ <- _update_status 3 None ;; ret true)
          else (_ <- _update_status (-1) (Some "DX error") ;; ret false)
    end.

End Run.





(** The persisted status values of a trace, in order. *)
Fixpoint statuses (tr : list Step) : list Z :=
  match tr with
  | [] => []
  | WriteStatus s _ :: rest => s :: statuses rest
  | _ :: rest => statuses rest
  end.

(** The lifecycle: from a non-terminal state (neither 3 nor -1) a write
    moves one step forward or to -1. *)
Fixpoint valid_from (cur : Z) (l : list Z) : bool :=
  match l with
  | [] => true
  | s :: rest =>
      negb (cur =? 3)%Z && negb (cur =? -1)%Z && ((s =? cur + 1)%Z || (s =? -1)%Z)
      && valid_from s rest
  end.

Definition is_upload (s : Step) : bool :=
  match s with UploadBom _ => true | _ => false end.

End Pipeline.

(* ================================================================= *)
(** ** Subprocess environment ([_venv_bin], [_build_subproc_env]) and
    the command line of the logs ([_format_cmd]) *)

Module Env.

(** [s.split(sep)] *)
Fixpoint split_on (sep : ascii) (s : string) : list string :=
  match s with
  | EmptyString => [EmptyString]
  | String c rest =>
      if Ascii.eqb c sep then EmptyString :: split_on sep rest
      else match split_on sep rest with
           | [] => [String c EmptyString]
           | w :: ws => String c w :: ws
           end
  end.

(** [str(Path(s).parent)] for the parsed components [parent]. *)
Definition parent_str (s : string) (parent : path) : string :=
  if starts_with_sep s then
    match parent with [] => "/" | _ => fold_right (fun c acc => ("/" ++ c ++ acc)%string) "" parent end
  else
    match parent with [] => "." | _ => String.concat "/" parent end.

(** [_venv_bin]: the directory of [sys.executable] when it is a [bin]
    directory and the executable's name starts with "python". *)
Definition _venv_bin (sys_executable : string) : option string :=
  let cs := components sys_executable in
  let parent := removelast cs in
  if String.eqb (last parent "") "bin" && String.prefix "python" (last cs "")
  then Some (parent_str sys_executable parent)
  else None.

Definition FIXED_BIN_DIRS : list string :=
  ["/root/.cargo/bin"; "/root/.local/bin"; "/usr/local/sbin"; "/usr/local/bin";
   "/usr/sbin"; "/usr/bin"; "/sbin"; "/bin"].

(** The [prefix] list of [_build_subproc_env]. *)
Definition path_prefix (sys_executable : string) : list string :=
  match _venv_bin sys_executable with Some v => [v] | None => [] end ++ FIXED_BIN_DIRS.

(** The [for p in merged.split(":")] loop: keeps the first occurrence of
    every non-empty entry. *)
Fixpoint dedup_parts (seen : list string) (ps : list string) : list string :=
  match ps with
  | [] => []
  | p :: rest =>
      if negb (String.eqb p "") && negb (existsb (String.eqb p) seen)
      then p :: dedup_parts (p :: seen) rest
      else dedup_parts seen rest
  end.

(** [_build_subproc_env()["PATH"]]: [current_path] is [os.environ.get("PATH")];
    every other variable is copied unchanged. *)
Definition _build_subproc_env (sys_executable : string) (current_path : option string) : string :=
  let current := match current_path with Some p => p | None => "" end in
  let merged := String.concat ":" (path_prefix sys_executable ++ [current]) in
  String.concat ":" (dedup_parts [] (split_on ":"%char merged)).

Definition dquote : ascii := "034"%char.

(** [s.replace('"', '\\"')] *)
Fixpoint escape_dquote (s : string) : string :=
  match s with
  | EmptyString => EmptyString
  | String c rest =>
      if Ascii.eqb c dquote then String "\"%char (String dquote (escape_dquote rest))
      else String c (escape_dquote rest)
  end.

(** The helper [q] of [_format_cmd]. *)
Definition format_arg (s : string) : string :=
  if String.eqb s "" then String dquote (String dquote EmptyString)
  else if has_char " "%char s || has_char "009"%char s || has_char "010"%char s
          || has_char dquote s || has_char "'"%char s
  then String dquote (escape_dquote s ++ String dquote EmptyString)%string
  else s.

Definition _format_cmd (args : list string) : string :=
  String.concat " " (map format_arg args).

End Env.

(* ================================================================= *)
(** ** Project rows ([sbom_db]: [create_sbom_project],
    [update_project_status], [project_authentication], [delete_project],
    [get_project_base_info]) *)

Module Db.
Import DxCtl.

(** A row of [sbom_project], its columns in the order [SbomProject] declares them; the
    timestamps are readings of the clock [datetime.now]. *)
Record Row := mkRow {
  r_id : nat;
  r_project_name : string;
  r_project_desc : string;
  r_code_language : string;
  r_code_path : string;
  r_create_time : nat;
  r_update_time : nat;
  r_create_user_id : nat;
  r_status : Z;
  r_dx_uuid : option string;
  r_error_message : option string
}.

(** The table and its autoincrement counter. *)
Record Db := mkDb {
  rows : list Row;
  next_id : nat
}.

Record ProjectInfo := mkProjectInfo {
  pi_project_name : string;
  pi_code_language : string;
  pi_project_desc : string;
  pi_status : Z
}.

Definition find_id (db : Db) (project_id : nat) : option Row :=
  find (fun r => Nat.eqb (r_id r) project_id) (rows db).

(** A [TEXT] column holds at most 65535 bytes. *)
Definition TEXT_BYTES : nat := N.to_nat 65535.

(** The longest run of leading characters within [n] bytes. *)
Fixpoint take_bytes (n : nat) (cs : list string) : list string :=
  match cs with
  | [] => []
  | c :: cs' =>
      if Nat.leb (String.length c) n then c :: take_bytes (n - String.length c) cs' else []
  end.

Section Queries.
(** Equality of two strings under the column's collation (MySQL's
    default collations ignore case, for instance); the unique index on
    [project_name] compares with it too. *)
Variable coll_eq : string -> string -> bool.
(** The server's [sql_mode]: in strict mode a value too long for its
    column fails the statement ([DataError]); otherwise it is cut to the
    column's width with a warning. *)
Variable strict_mode : bool.

(** A value for a [VARCHAR(width)] column (a width in characters). *)
Definition varchar (width : nat) (s : string) : option string :=
  if Nat.leb (py_len s) width then Some s
  else if strict_mode then None else Some (py_prefix width s).

(** A value for a [TEXT] column. *)
Definition text_col (s : string) : option string :=
  if Nat.leb (String.length s) TEXT_BYTES then Some s
  else if strict_mode then None
  else Some (String.concat "" (take_bytes TEXT_BYTES (utf8_decode s))).

(** [create_sbom_project]: the duplicate check, then the [INSERT] of the
    [flush]: the values are fitted to [project_name VARCHAR(64)],
    [project_desc TEXT], [code_language VARCHAR(64)],
    [code_path VARCHAR(255)] and [dx_uuid VARCHAR(64)], then the unique
    index on the stored name is checked, after the row took its
    autoincrement id. [create_now] and [update_now] are the readings of
    [datetime.now] the two column defaults take. *)
Definition create_sbom_project (db : Db) (project_name project_desc code_language : string)
    (user_id : nat) (file_path dx_uuid : string) (create_now update_now : nat) : Outcome nat * Db :=
  if existsb (fun r => coll_eq (r_project_name r) project_name) (rows db)
  then (Raise "项目名称重复，请重新输入", db)
  else
    match varchar 64 project_name, text_col project_desc, varchar 64 code_language,
          varchar 255 file_path, varchar 64 dx_uuid with
    | Some name, Some desc, Some lang, Some path, Some uuid =>
        let project_id := next_id db in
        if existsb (fun r => coll_eq (r_project_name r) name) (rows db)
        then (Raise "IntegrityError", mkDb (rows db) (S project_id))
        else
          let new_obj := mkRow project_id name desc lang path create_now update_now
                           user_id 0 (Some uuid) None in
          (Ret project_id, mkDb (rows db ++ [new_obj]) (S project_id))
    | _, _, _, _, _ => (Raise "DataError", db)
    end.

Definition set_status (project_id : nat) (status : Z) (error_message : option string)
    (now : nat) (r : Row) : Row :=
  if Nat.eqb (r_id r) project_id
  then mkRow (r_id r) (r_project_name r) (r_project_desc r) (r_code_language r)
         (r_code_path r) (r_create_time r) now (r_create_user_id r) status (r_dx_uuid r)
         error_message
  else r.

(** The value for the nullable [error_message TEXT] column. *)
Definition opt_text (o : option string) : option (option string) :=
  match o with
  | None => Some None
  | Some m => option_map Some (text_col m)
  end.

(** [UPDATE ... SET status, error_message, update_time = now WHERE
    id = project_id], then [True]. A message too long for its column
    fails the statement when a row matches. *)
Definition update_project_status (db : Db) (project_id : nat) (status : Z)
    (error_message : option string) (now : nat) : Outcome bool * Db :=
  if existsb (fun r => Nat.eqb (r_id r) project_id) (rows db) then
    match opt_text error_message with
    | None => (Raise "DataError", db)
    | Some msg =>
        (Ret true, mkDb (map (set_status project_id status msg now) (rows db)) (next_id db))
    end
  else (Ret true, db).

Definition project_authentication (db : Db) (project_id user_id : nat) : Outcome bool :=
  match find_id db project_id with
  | None => Raise "未知项目"
  | Some r => if Nat.eqb (r_create_user_id r) user_id then Ret true else Raise "暂无修改权限"
  end.

(** Side effects of [delete_project] besides the table. *)
Inductive Effect :=
  | DxRequest (e : HttpEvent)
  | Rmtree (p : string).

Definition truthy (o : option string) : bool :=
  match o with Some s => negb (String.eqb s "") | None => false end.

(** [delete_project]: [srv] answers the DX DELETE requests and
    [path_exists] is [os.path.exists]. *)
Definition delete_project (db : Db) (srv : Server) (path_exists : string -> bool)
    (project_id user_id : nat) : Outcome bool * Db * list Effect :=
  match project_authentication db project_id user_id with
  | Raise e => (Raise e, db, [])
  | Ret _ =>
      match find_id db project_id with
      | None => (Raise "未知项目", db, [])
      | Some row =>
          let '(dx, evs) :=
            if truthy (r_dx_uuid row) then DxCtl.delete_project srv else (Ret true, []) in
          let dx_effects := map DxRequest evs in
          match dx with
          | Raise e => (Raise e, db, dx_effects)
          | Ret _ =>
              let rm := if negb (String.eqb (r_code_path row) "") && path_exists (r_code_path row)
                        then [Rmtree (r_code_path row)] else [] in
              (Ret true,
               mkDb (filter (fun r => negb (Nat.eqb (r_id r) project_id)) (rows db)) (next_id db),
               dx_effects ++ rm)
          end
      end
  end.

(** [get_project_base_info]: the first row whose [dx_uuid] equals the
    argument (a NULL never does). *)
Definition get_project_base_info (db : Db) (dx_uuid : string) : Outcome ProjectInfo :=
  match find (fun r => match r_dx_uuid r with Some u => coll_eq u dx_uuid | None => false end)
             (rows db) with
  | None => Raise "未知项目"
  | Some r => Ret (mkProjectInfo (r_project_name r) (r_code_language r) (r_project_desc r)
                    (r_status r))
  end.

End Queries.

End Db.

(* ================================================================= *)
(** ** Upload endpoint ([_safe_filename] and [create_sbom_project] of
    src/api/sbom.py) *)

Module Api.
Import DxCtl.

Fixpoint replace_char (c d : ascii) (s : string) : string :=
  match s with
  | EmptyString => EmptyString
  | String x rest => String (if Ascii.eqb x c then d else x) (replace_char c d rest)
  end.

(** [os.path.basename]: the text after the last "/". *)
Definition basename (name : string) : string := last (Env.split_on "/"%char name) "".

Definition _safe_filename (name : string) : string :=
  replace_char "/"%char "_"%char (replace_char "\"%char "_"%char (basename name)).

(** [s.rsplit(".", 1)] on a string that contains ".". *)
Definition rsplit_dot (s : string) : string * string :=
  let parts := Env.split_on "."%char s in
  (String.concat "." (removelast parts), last parts "").

Definition _ALONE_LANGUAGE : list string :=
  ["python"; "golang"; "php"; "javascript"; "rust"; "java"; "c/c++"].

Definition _ALLOWED_ARCHIVE_SUFFIX : list string := ["zip"; "tar"].

(** The file-name checks: [Some (filename, file_name)] when accepted. *)
Definition upload_names (raw_filename : string) : option (string * string) :=
  let filename := _safe_filename raw_filename in
  if negb (has_char "."%char filename) then None
  else
    let file_suffix := Registry.lower (snd (rsplit_dot filename)) in
    let file_name := fst (rsplit_dot filename) in
    if negb (existsb (String.eqb file_suffix) _ALLOWED_ARCHIVE_SUFFIX) then None
    else Some (filename, file_name).

Inductive Response :=
  | Failed (msg : string)
  | Success (project_id : nat) (dx_uuid : string).

(** What the endpoint does outside the table. *)
Inductive Effect :=
  | DxRequest (e : HttpEvent)
  | SaveUpload (file_path : path)
  | SpawnPipeline (archive_path extract_dir : path) (dx_uuid file_name code_language : string)
      (project_id : nat).

(** [create_sbom_project]: [raw_filename] is [file.filename or ""],
    [dx_project_name] the value of [uuid4().hex], [srv] the DX answers,
    [create_now] and [update_now] the clock readings of the row's
    timestamps; [mkdir] and the write of the upload are taken to
    succeed. *)
Definition create_sbom_project (coll_eq : string -> string -> bool) (strict_mode : bool)
    (db : Db.Db) (srv : Server) (sbom_root : path) (create_now update_now : nat)
    (dx_project_name project_name project_desc code_language raw_filename : string)
    : Outcome Response * Db.Db * list Effect :=
  if negb (existsb (String.eqb code_language) _ALONE_LANGUAGE)
  then (Ret (Failed "暂不支持该语言"), db, [])
  else
    match upload_names raw_filename with
    | None => (Ret (Failed "文件格式错误，只支持zip和tar格式"), db, [])
    | Some (filename, file_name) =>
        let '(created, evs) := DxCtl.create_project srv in
        let dx_effects := map DxRequest evs in
        match created with
        | Raise e => (Raise e, db, dx_effects)
        | Ret dx_uuid =>
            let file_path := path_join sbom_root filename in
            let file_dir := path_join sbom_root dx_project_name in
            let saved := dx_effects ++ [SaveUpload file_path] in
            match Db.create_sbom_project coll_eq strict_mode db project_name project_desc
                    code_language 0 (Pipeline.path_str file_dir) dx_uuid create_now update_now with
            | (Raise e, db') => (Raise e, db', saved)
            | (Ret project_id, db') =>
                (Ret (Success project_id dx_uuid), db',
                 saved ++ [SpawnPipeline file_path file_dir dx_uuid file_name code_language project_id])
            end
        end
    end.

End Api.

(* ================================================================= *)
(** * Proofs *)

(** Turns the [Z] comparisons of the code into hypotheses for [lia]. *)
Ltac zcases :=
  repeat match goal with
  | H : (?a >? ?b)%Z = true |- _ => rewrite Z.gtb_ltb, Z.ltb_lt in H
  | H : (?a >? ?b)%Z = false |- _ => rewrite Z.gtb_ltb, Z.ltb_ge in H
  end.

Module ExtractProofs.
Import Extract.

Lemma zip_sizes_nonneg (is : list ZipInfo) :
  (0 <= fold_right Z.add 0 (map (fun i => Z.of_N (zi_file_size i)) is))%Z.
Proof. induction is; simpl; lia. Qed.

Lemma tar_sizes_nonneg (ms : list TarInfo) :
  (0 <= fold_right Z.add 0 (map (fun m => Z.max 0 (ti_size m)) ms))%Z.
Proof. induction ms; simpl; lia. Qed.

Lemma zip_loop_escape (ms : Z) (dest : path) : forall is t,
  existsb (fun i => member_escapes dest (zi_filename i)) is = true ->
  exists e, zip_loop ms dest t is = ExtractFail e /\
    ((t + fold_right Z.add 0 (map (fun i => Z.of_N (zi_file_size i)) is) <= ms)%Z ->
     is_path_err e = true).
Proof.
  induction is as [|i is IH]; intros t H; simpl in H; [discriminate|].
  simpl. pose proof (zip_sizes_nonneg is).
  destruct (t + Z.of_N (zi_file_size i) >? ms)%Z eqn:Hs; zcases.
  - eexists; split; [reflexivity|]. intros. lia.
  - destruct (suspicious_abs (zi_filename i)) eqn:Ha.
    + eexists; split; [reflexivity|]. reflexivity.
    + destruct (negb (_is_within_directory dest (path_join dest (zi_filename i)))) eqn:Hw.
      * eexists; split; [reflexivity|]. reflexivity.
      * unfold member_escapes in H. unfold suspicious_abs in Ha.
        rewrite Ha, Hw in H. simpl in H.
        destruct (IH (t + Z.of_N (zi_file_size i))%Z H) as [e [He Hp]]. exists e. split; [exact He|].
        intros. apply Hp. lia.
Qed.

Lemma tar_loop_escape (ms : Z) (dest : path) : forall mem t,
  existsb (fun m => member_escapes dest (ti_name m)) mem = true ->
  exists e, tar_loop ms dest t mem = ExtractFail e /\
    ((t + fold_right Z.add 0 (map (fun m => Z.max 0 (ti_size m)) mem) <= ms)%Z ->
     existsb tar_link mem = false ->
     is_path_err e = true).
Proof.
  induction mem as [|m mem IH]; intros t H; simpl in H; [discriminate|].
  simpl. pose proof (tar_sizes_nonneg mem).
  destruct (suspicious_abs (ti_name m)) eqn:Ha.
  - eexists; split; [reflexivity|]. reflexivity.
  - destruct (issym m || islnk m) eqn:Hl.
    + eexists; split; [reflexivity|]. intros _ Hn. simpl in Hn.
      unfold tar_link in Hn. rewrite Hl in Hn. discriminate.
    + destruct (t + Z.max 0 (ti_size m) >? ms)%Z eqn:Hs; zcases.
      * eexists; split; [reflexivity|]. intros. lia.
      * destruct (negb (_is_within_directory dest (path_join dest (ti_name m)))) eqn:Hw.
        -- eexists; split; [reflexivity|]. reflexivity.
        -- unfold member_escapes in H. unfold suspicious_abs in Ha.
           rewrite Ha, Hw in H. simpl in H.
           destruct (IH (t + Z.max 0 (ti_size m))%Z H) as [e [He Hp]]. exists e. split; [exact He|].
           intros Hle Hn. apply Hp; [lia|]. simpl in Hn.
           unfold tar_link in Hn. rewrite Hl in Hn. exact Hn.
Qed.

Lemma zip_loop_over (ms : Z) (dest : path) : forall is t,
  (t <= ms)%Z ->
  (t + fold_right Z.add 0 (map (fun i => Z.of_N (zi_file_size i)) is) > ms)%Z ->
  exists e, zip_loop ms dest t is = ExtractFail e /\
    (forallb (fun i => negb (member_escapes dest (zi_filename i))) is = true ->
     e = ErrTooLarge FmtZip).
Proof.
  induction is as [|i is IH]; intros t Ht H; simpl in H; [lia|].
  simpl. destruct (t + Z.of_N (zi_file_size i) >? ms)%Z eqn:Hs; zcases.
  - eexists; split; [reflexivity|]. reflexivity.
  - destruct (suspicious_abs (zi_filename i)) eqn:Ha.
    + eexists; split; [reflexivity|]. intros Hc. simpl in Hc.
      unfold member_escapes in Hc. unfold suspicious_abs in Ha.
      rewrite Ha in Hc. discriminate.
    + destruct (negb (_is_within_directory dest (path_join dest (zi_filename i)))) eqn:Hw.
      * eexists; split; [reflexivity|]. intros Hc. simpl in Hc.
        unfold member_escapes in Hc. rewrite Hw, orb_true_r in Hc. discriminate.
      * destruct (IH (t + Z.of_N (zi_file_size i))%Z) as [e [He Hp]]; [lia|lia|].
        exists e. split; [exact He|]. intros Hc. simpl in Hc.
        apply andb_true_iff in Hc. apply Hp, Hc.
Qed.

Lemma tar_loop_over (ms : Z) (dest : path) : forall mem t,
  (t <= ms)%Z ->
  (t + fold_right Z.add 0 (map (fun m => Z.max 0 (ti_size m)) mem) > ms)%Z ->
  exists e, tar_loop ms dest t mem = ExtractFail e /\
    (forallb (fun m => negb (member_escapes dest (ti_name m))) mem = true ->
     existsb tar_link mem = false ->
     e = ErrTooLarge FmtTar).
Proof.
  induction mem as [|m mem IH]; intros t Ht H; simpl in H; [lia|].
  simpl. destruct (suspicious_abs (ti_name m)) eqn:Ha.
  - eexists; split; [reflexivity|]. intros Hc. simpl in Hc.
    unfold member_escapes in Hc. unfold suspicious_abs in Ha.
    rewrite Ha in Hc. discriminate.
  - destruct (issym m || islnk m) eqn:Hl.
    + eexists; split; [reflexivity|]. intros _ Hn. simpl in Hn.
      unfold tar_link in Hn. rewrite Hl in Hn. discriminate.
    + destruct (t + Z.max 0 (ti_size m) >? ms)%Z eqn:Hs; zcases.
      * eexists; split; [reflexivity|]. reflexivity.
      * destruct (negb (_is_within_directory dest (path_join dest (ti_name m)))) eqn:Hw.
        -- eexists; split; [reflexivity|]. intros Hc. simpl in Hc.
           unfold member_escapes in Hc. rewrite Hw, orb_true_r in Hc. discriminate.
        -- destruct (IH (t + Z.max 0 (ti_size m))%Z) as [e [He Hp]]; [lia|lia|].
           exists e. split; [exact He|]. intros Hc Hn. simpl in Hc, Hn.
           apply andb_true_iff in Hc. unfold tar_link in Hn. rewrite Hl in Hn.
           apply Hp; [apply Hc | exact Hn].
Qed.

Lemma tar_loop_app_clean (ms : Z) (dest : path) (rest : list TarInfo) :
  forall pre t,
  forallb (tar_member_clean dest) pre = true ->
  (0 <= t)%Z ->
  (t + fold_right Z.add 0 (map (fun m => Z.max 0 (ti_size m)) pre) <= ms)%Z ->
  tar_loop ms dest t (pre ++ rest)
  = tar_loop ms dest (t + fold_right Z.add 0 (map (fun m => Z.max 0 (ti_size m)) pre))%Z rest.
Proof.
  induction pre as [|p pre IH]; intros t Hc Ht Hs; simpl.
  - rewrite Z.add_0_r. reflexivity.
  - simpl in Hc, Hs. apply andb_true_iff in Hc as [Hp Hc].
    unfold tar_member_clean, tar_link in Hp.
    apply andb_true_iff in Hp as [Hp Hw]. apply andb_true_iff in Hp as [Ha Hl].
    apply negb_true_iff in Ha. apply negb_true_iff in Hl.
    rewrite Ha, Hl, Hw. pose proof (tar_sizes_nonneg pre).
    destruct (t + Z.max 0 (ti_size p) >? ms)%Z eqn:Hs'; zcases; [lia|].
    simpl. rewrite IH by (auto; lia). f_equal. lia.
Qed.

Lemma zip_loop_no_link (ms : Z) (dest : path) : forall is t e,
  zip_loop ms dest t is = ExtractFail e -> is_link_err e = false.
Proof.
  induction is as [|i is IH]; intros t e H; simpl in H; [discriminate|].
  destruct (_ >? ms)%Z; [injection H as <-; reflexivity|].
  destruct (suspicious_abs _); [injection H as <-; reflexivity|].
  destruct (negb _); [injection H as <-; reflexivity|].
  eapply IH; exact H.
Qed.

Lemma in_names_existsb {A} (f : A -> string) (g : string -> bool) (l : list A) (name : string) :
  In name (map f l) -> g name = true -> existsb (fun x => g (f x)) l = true.
Proof.
  intros Hin Hg. apply existsb_exists. apply in_map_iff in Hin as [x [<- Hx]].
  exists x. split; assumption.
Qed.

Lemma tar_loop_link (ms : Z) (dest : path) : forall mem t,
  existsb tar_link mem = true -> exists e, tar_loop ms dest t mem = ExtractFail e.
Proof.
  induction mem as [|m mem IH]; intros t H; simpl in H; [discriminate|].
  simpl. destruct (suspicious_abs _); [eexists; reflexivity|].
  unfold tar_link in H. destruct (issym m || islnk m); [eexists; reflexivity|].
  destruct (_ >? ms)%Z; [eexists; reflexivity|].
  destruct (negb _); [eexists; reflexivity|].
  apply IH. exact H.
Qed.

Lemma forallb_map_names {A} (f : A -> string) (g : string -> bool) (l : list A) :
  forallb g (map f l) = forallb (fun x => g (f x)) l.
Proof. induction l; simpl; [reflexivity|]. rewrite IHl. reflexivity. Qed.

End ExtractProofs.

Module ExtractClaims.
Import Extract ExtractProofs.

(** Claim C1, as stated, fails: a zip whose only member is "../evil"
    (resolved outside [/srv/job]) is refused by the cumulative-size
    check, which [_safe_extract_zip] runs for a member before its path
    checks; the error is not a path error. *)
Lemma C1_counterexample :
  In "../evil" (member_names (ZipArchive [mkZipInfo "../evil" 10 0])) /\
  member_escapes ["srv"; "job"] "../evil" = true /\
  exists e, _do_extract 100 5 ["srv"; "job"] (ZipArchive [mkZipInfo "../evil" 10 0]) ExtractallDone
            = (ExtractFail e, []) /\ is_path_err e = false.
Proof.
  split; [left; reflexivity|]. split; [vm_compute; reflexivity|].
  exists (ErrTooLarge FmtZip). split; vm_compute; reflexivity.
Qed.

(** Claim C1 (amended): for every zip or tar archive with a member whose
    name is absolute, contains ":" or resolves outside [dest],
    extraction fails and [extractall] writes no file at all (so none
    outside [dest]); when the member-count and cumulative-size ceilings
    hold and the archive has no tar link member, the error is the
    absolute-path or path-traversal error. *)
Theorem extract_escaping_member_rejected (mf ms : Z) (dest : path)
    (a : ArchiveFile) (run : ExtractallRun) (name : string) :
  In name (member_names a) ->
  member_escapes dest name = true ->
  exists e, _do_extract mf ms dest a run = (ExtractFail e, []) /\
    ((Z.of_nat (length (member_names a)) <= mf)%Z ->
     (total_declared_size a <= ms)%Z ->
     tar_has_link a = false ->
     is_path_err e = true).
Proof.
  intros Hin Hesc. destruct a as [mem | is |]; simpl in Hin; [| | contradiction].
  - pose proof (in_names_existsb ti_name (member_escapes dest) mem name Hin Hesc) as Hx.
    unfold _do_extract, _safe_extract_tar, member_names, total_declared_size,
      declared_sizes, tar_has_link.
    rewrite length_map.
    destruct (Z.of_nat (length mem) >? mf)%Z eqn:Hc; zcases.
    + eexists; split; [reflexivity|]. intros. lia.
    + destruct (tar_loop_escape ms dest mem 0%Z Hx) as [e [He Hp]].
      rewrite He. exists e. split; [reflexivity|]. intros _ Hs Hn. apply Hp; [lia|exact Hn].
  - pose proof (in_names_existsb zi_filename (member_escapes dest) is name Hin Hesc) as Hx.
    unfold _do_extract, _safe_extract_zip, member_names, total_declared_size,
      declared_sizes.
    rewrite length_map.
    destruct (Z.of_nat (length is) >? mf)%Z eqn:Hc; zcases.
    + eexists; split; [reflexivity|]. intros. lia.
    + destruct (zip_loop_escape ms dest is 0%Z Hx) as [e [He Hp]].
      rewrite He. exists e. split; [reflexivity|]. intros _ Hs _. apply Hp. lia.
Qed.

Lemma extract_escaping_member_rejected_witness :
  In "../../etc/passwd"
     (member_names (TarArchive [mkTarInfo "../../etc/passwd" REGTYPE 4])) /\
  member_escapes ["srv"; "job"] "../../etc/passwd" = true /\
  exists e, _do_extract 10 100 ["srv"; "job"]
              (TarArchive [mkTarInfo "../../etc/passwd" REGTYPE 4]) ExtractallDone
            = (ExtractFail e, []) /\
    ((Z.of_nat (length (member_names
        (TarArchive [mkTarInfo "../../etc/passwd" REGTYPE 4]))) <= 10)%Z ->
     (total_declared_size (TarArchive [mkTarInfo "../../etc/passwd" REGTYPE 4]) <= 100)%Z ->
     tar_has_link (TarArchive [mkTarInfo "../../etc/passwd" REGTYPE 4]) = false ->
     is_path_err e = true).
Proof.
  split; [left; reflexivity|]. split; [vm_compute; reflexivity|].
  apply (extract_escaping_member_rejected 10 100 ["srv"; "job"]
           (TarArchive [mkTarInfo "../../etc/passwd" REGTYPE 4]) ExtractallDone "../../etc/passwd").
  - left; reflexivity.
  - vm_compute; reflexivity.
Defined.

End ExtractClaims.

Module LinkClaims.
Import Extract ExtractProofs.

(** Claim C2, as stated, fails for zip: a zip whose member is stored as
    a symbolic link (mode 0o120777 in the external attributes) passes
    [_safe_extract_zip], which has no link check, and is extracted. *)
Lemma C2_counterexample :
  has_link_member (ZipArchive [mkZipInfo "link" 0 (41471 * 65536)]) = true /\
  _do_extract 10 100 ["srv"; "job"] (ZipArchive [mkZipInfo "link" 0 (41471 * 65536)]) ExtractallDone
  = (ExtractOk, [["srv"; "job"; "link"]]).
Proof. split; vm_compute; reflexivity. Qed.

(** Claim C2 (amended): a tar-family archive with a symbolic or hard-link
    member is refused and nothing is written; the error is the link
    error for that member when the member count is within the ceiling,
    every earlier member passes all checks within the size ceiling, and
    the link member's own name is not absolute. Zip extraction has no
    link check: it never reports a link error. *)
Theorem tar_link_member_rejected (mf ms : Z) (dest : path) (run : ExtractallRun)
    (pre post : list TarInfo) (m : TarInfo) :
  tar_link m = true ->
  (exists e, _do_extract mf ms dest (TarArchive (pre ++ m :: post)) run = (ExtractFail e, [])) /\
  ((Z.of_nat (length (pre ++ m :: post)) <= mf)%Z ->
   forallb (tar_member_clean dest) pre = true ->
   (fold_right Z.add 0 (map (fun p => Z.max 0 (ti_size p)) pre) <= ms)%Z ->
   suspicious_abs (ti_name m) = false ->
   _do_extract mf ms dest (TarArchive (pre ++ m :: post)) run
   = (ExtractFail (ErrLinkMember (ti_name m)), [])) /\
  (forall is, match fst (_do_extract mf ms dest (ZipArchive is) run) with
              | ExtractFail e => is_link_err e = false
              | ExtractOk => True
              end).
Proof.
  intros Hm. split; [|split].
  - unfold _do_extract, _safe_extract_tar.
    destruct (Z.of_nat (length (pre ++ m :: post)) >? mf)%Z;
      [eexists; reflexivity|].
    destruct (tar_loop_link ms dest (pre ++ m :: post) 0%Z) as [e He].
    + rewrite existsb_app. simpl. rewrite Hm. apply orb_true_r.
    + rewrite He. eexists; reflexivity.
  - intros Hc Hpre Hs Ha. unfold _do_extract, _safe_extract_tar.
    destruct (Z.of_nat (length (pre ++ m :: post)) >? mf)%Z eqn:Hc'; zcases; [lia|].
    rewrite tar_loop_app_clean by (auto; lia). simpl. rewrite Ha.
    unfold tar_link in Hm. rewrite Hm. reflexivity.
  - intros is. unfold _do_extract, _safe_extract_zip.
    destruct (Z.of_nat (length is) >? mf)%Z; [reflexivity|].
    destruct (zip_loop ms dest 0%Z is) eqn:Hz; simpl; [destruct run; simpl; reflexivity|].
    eapply zip_loop_no_link; exact Hz.
Qed.

Lemma tar_link_member_rejected_witness :
  tar_link (mkTarInfo "lnk" SYMTYPE 0) = true /\
  ((exists e, _do_extract 10 100 ["srv"; "job"]
       (TarArchive ([mkTarInfo "a.txt" REGTYPE 3] ++ mkTarInfo "lnk" SYMTYPE 0 :: [])) ExtractallDone
       = (ExtractFail e, [])) /\
   ((Z.of_nat (length ([mkTarInfo "a.txt" REGTYPE 3] ++ mkTarInfo "lnk" SYMTYPE 0 :: [])) <= 10)%Z ->
    forallb (tar_member_clean ["srv"; "job"]) [mkTarInfo "a.txt" REGTYPE 3] = true ->
    (fold_right Z.add 0 (map (fun p => Z.max 0 (ti_size p)) [mkTarInfo "a.txt" REGTYPE 3]) <= 100)%Z ->
    suspicious_abs (ti_name (mkTarInfo "lnk" SYMTYPE 0)) = false ->
    _do_extract 10 100 ["srv"; "job"]
      (TarArchive ([mkTarInfo "a.txt" REGTYPE 3] ++ mkTarInfo "lnk" SYMTYPE 0 :: [])) ExtractallDone
    = (ExtractFail (ErrLinkMember (ti_name (mkTarInfo "lnk" SYMTYPE 0))), [])) /\
   (forall is, match fst (_do_extract 10 100 ["srv"; "job"] (ZipArchive is) ExtractallDone) with
               | ExtractFail e => is_link_err e = false
               | ExtractOk => True
               end)).
Proof.
  split; [reflexivity|].
  apply (tar_link_member_rejected 10 100 ["srv"; "job"] ExtractallDone
           [mkTarInfo "a.txt" REGTYPE 3] [] (mkTarInfo "lnk" SYMTYPE 0)).
  reflexivity.
Defined.

End LinkClaims.

Module QuotaClaims.
Import Extract ExtractProofs.

(** Claim C3, as stated, fails: this zip declares 101 bytes against a
    ceiling of 50, but its first member "../a" is refused by the
    traversal check before the cumulative size passes the ceiling, so
    the error is not a quota error. *)
Lemma C3_counterexample :
  (total_declared_size (ZipArchive [mkZipInfo "../a" 1 0; mkZipInfo "b" 100 0]) > 50)%Z /\
  _do_extract 10 50 ["srv"; "job"] (ZipArchive [mkZipInfo "../a" 1 0; mkZipInfo "b" 100 0])
    ExtractallDone = (ExtractFail (ErrTraversal FmtZip "../a"), []) /\
  is_quota_err (ErrTraversal FmtZip "../a") = false.
Proof. split; [vm_compute; reflexivity|]. split; vm_compute; reflexivity. Qed.

(** Claim C3 (amended): every zip or tar archive whose member count
    exceeds [mf] or whose cumulative declared size exceeds [ms >= 0] is
    refused before [extractall] writes anything; the error is the
    member-count quota error when the count exceeds [mf], and a quota
    error whenever no member has an escaping name and no tar member is
    a link (otherwise the path or link check of an earlier member may
    fire first). *)
Theorem extract_quota_exceeded (mf ms : Z) (dest : path) (a : ArchiveFile) (run : ExtractallRun) :
  a <> OtherFile ->
  (0 <= ms)%Z ->
  ((Z.of_nat (length (member_names a)) > mf)%Z \/ (total_declared_size a > ms)%Z) ->
  exists e, _do_extract mf ms dest a run = (ExtractFail e, []) /\
    ((Z.of_nat (length (member_names a)) > mf)%Z -> is_quota_err e = true) /\
    (forallb (fun n => negb (member_escapes dest n)) (member_names a) = true ->
     tar_has_link a = false -> is_quota_err e = true).
Proof.
  intros Hnot Hms Hq. destruct a as [mem | is |]; [| | contradiction].
  - unfold _do_extract, _safe_extract_tar, member_names, total_declared_size,
      declared_sizes, tar_has_link in *.
    rewrite length_map in *. rewrite forallb_map_names.
    destruct (Z.of_nat (length mem) >? mf)%Z eqn:Hc; zcases.
    + eexists; split; [reflexivity|]. split; reflexivity.
    + destruct Hq as [Hq | Hq]; [lia|].
      destruct (tar_loop_over ms dest mem 0%Z) as [e [He Hp]]; [lia|lia|].
      rewrite He. exists e. split; [reflexivity|]. split; [intros; lia|].
      intros Hc' Hn. rewrite (Hp Hc' Hn). reflexivity.
  - unfold _do_extract, _safe_extract_zip, member_names, total_declared_size,
      declared_sizes, tar_has_link in *.
    rewrite length_map in *. rewrite forallb_map_names.
    destruct (Z.of_nat (length is) >? mf)%Z eqn:Hc; zcases.
    + eexists; split; [reflexivity|]. split; reflexivity.
    + destruct Hq as [Hq | Hq]; [lia|].
      destruct (zip_loop_over ms dest is 0%Z) as [e [He Hp]]; [lia|lia|].
      rewrite He. exists e. split; [reflexivity|]. split; [intros; lia|].
      intros Hc' _. rewrite (Hp Hc'). reflexivity.
Qed.

Lemma extract_quota_exceeded_witness :
  ZipArchive [mkZipInfo "big.bin" 3000 0] <> OtherFile /\
  (0 <= 2048)%Z /\
  exists e, _do_extract 10 2048 ["srv"; "job"] (ZipArchive [mkZipInfo "big.bin" 3000 0]) ExtractallDone
            = (ExtractFail e, []) /\
    ((Z.of_nat (length (member_names (ZipArchive [mkZipInfo "big.bin" 3000 0]))) > 10)%Z ->
     is_quota_err e = true) /\
    (forallb (fun n => negb (member_escapes ["srv"; "job"] n))
       (member_names (ZipArchive [mkZipInfo "big.bin" 3000 0])) = true ->
     tar_has_link (ZipArchive [mkZipInfo "big.bin" 3000 0]) = false -> is_quota_err e = true).
Proof.
  split; [discriminate|]. split; [lia|].
  apply (extract_quota_exceeded 10 2048 ["srv"; "job"] (ZipArchive [mkZipInfo "big.bin" 3000 0])
           ExtractallDone).
  - discriminate.
  - lia.
  - right. vm_compute. reflexivity.
Defined.

End QuotaClaims.

Module RegistryClaims.
Import Registry.

Lemma pick_first_in (h : Host) : forall cands r,
  _pick_first_existing h cands = Some r -> In r cands.
Proof.
  induction cands as [|c cands IH]; simpl; intros r H; [discriminate|].
  destruct (exists_in_root h c); [injection H as <-; left; reflexivity|].
  right. apply IH, H.
Qed.

Lemma python_bom_none (h : Host) (u root : string) :
  _build_python_bom h u root = None <->
  match _pick_first_existing h PYTHON_REQUIREMENT_CANDIDATES with
  | Some _ => true
  | None => exists_in_root h "pyproject.toml"
  end = false.
Proof.
  unfold _build_python_bom.
  destruct (_pick_first_existing h PYTHON_REQUIREMENT_CANDIDATES) as [r|] eqn:Hp.
  - apply pick_first_in in Hp.
    assert (Hr : String.eqb r "" = false).
    { simpl in Hp. repeat (destruct Hp as [<-|Hp]; [reflexivity|]). contradiction. }
    rewrite Hr. simpl. split; discriminate.
  - destruct (exists_in_root h "pyproject.toml"); split; congruence.
Qed.

(** Claim C4, as stated, fails: with [cdxgen] on the PATH and no file at
    all in the project root, the Java strategy still returns a command;
    with no tool on the PATH but a [requirements.txt], the Python
    strategy returns a command too. *)
Lemma C4_counterexample :
  fst (build_bom_command
         (mkHost (fun t => if String.eqb t "cdxgen" then Some "/usr/local/bin/cdxgen" else None)
                 "/venv/bin/python" (fun _ => false))
         "java" "u1" "/srv/job") <> None /\
  fst (build_bom_command
         (mkHost (fun _ => None) "/venv/bin/python"
                 (fun n => String.eqb n "requirements.txt"))
         "python" "u1" "/srv/job") <> None.
Proof. split; vm_compute; discriminate. Qed.

(** Claim C4 (amended): command building returns [None] exactly when a
    precondition the strategy checks fails: Python needs one of the
    requirement files or [pyproject.toml] (its generator runs as
    [sys.executable -m cyclonedx_py] and is not looked up on the PATH);
    Go, PHP, JavaScript and Rust need their tools on the PATH and their
    manifest; Java and C/C++ need only [cdxgen] on the PATH (no manifest
    is checked); any other identifier yields [None]. *)
Theorem build_bom_command_none_iff (h : Host) (code_language dx_uuid project_root : string) :
  fst (build_bom_command h code_language dx_uuid project_root) = None <->
  checked_preconditions h (strip (lower code_language)) = false.
Proof.
  unfold build_bom_command, checked_preconditions. simpl.
  set (l := strip (lower code_language)).
  destruct (String.eqb l "python"); [apply python_bom_none|].
  destruct (String.eqb l "golang" || String.eqb l "go").
  { unfold _build_golang_bom.
    destruct (truthy (which h "cyclonedx-gomod")), (exists_in_root h "go.mod");
      simpl; split; congruence. }
  destruct (String.eqb l "php").
  { unfold _build_php_bom.
    destruct (truthy (which h "composer")), (exists_in_root h "composer.json");
      simpl; split; congruence. }
  destruct (String.eqb l "javascript" || String.eqb l "node" || String.eqb l "nodejs").
  { unfold _build_javascript_bom.
    destruct (truthy (which h "cyclonedx-npm")), (exists_in_root h "package.json");
      simpl; split; congruence. }
  destruct (String.eqb l "rust").
  { unfold _build_rust_bom.
    destruct (truthy (which h "cargo")), (truthy (which h "cargo-cyclonedx")),
      (exists_in_root h "Cargo.toml"); simpl; split; congruence. }
  destruct (String.eqb l "java").
  { unfold _build_java_bom. destruct (truthy (which h "cdxgen")); simpl; split; congruence. }
  destruct (String.eqb l "c/c++" || String.eqb l "c" || String.eqb l "cpp").
  { unfold _build_c_cpp_bom. destruct (truthy (which h "cdxgen")); simpl; split; congruence. }
  split; reflexivity.
Qed.

End RegistryClaims.

Module SupervisorClaims.
Import Supervisor.

(** Claim C5, as stated, fails: on timeout the result is built without
    awaiting the two output-capture tasks, and its code 124 is also what
    a command that exits normally with status 124 (and writes
    "TIMEOUT" on stderr) yields. *)
Lemma C5_counterexample :
  let r := run_command_logged 1 80 (Spawned (mkProc None 0 ["partial"] [])) in
  returncode (fst r) = 124%Z /\
  ~ In (EvAwaitReader Stdout) (snd r) /\ ~ In (EvAwaitReader Stderr) (snd r) /\
  returncode (fst (run_command_logged 1 80 (Spawned (mkProc (Some 5) 124 [] ["TIMEOUT"]))))
  = returncode (fst r) /\
  stdout (fst (run_command_logged 1 80 (Spawned (mkProc (Some 5) 124 [] ["TIMEOUT"]))))
  = stdout (fst r) /\
  stderr (fst (run_command_logged 1 80 (Spawned (mkProc (Some 5) 124 [] ["TIMEOUT"]))))
  = stderr (fst r).
Proof.
  simpl. split; [reflexivity|].
  split; [intros H; repeat (destruct H as [H|H]; [discriminate|]); exact H|].
  split; [intros H; repeat (destruct H as [H|H]; [discriminate|]); exact H|].
  repeat split.
Qed.

(** Claim C5 (amended): when a spawned command's runtime exceeds the
    timeout, the supervisor kills it and waits for it, and returns
    return code 124, empty stdout and stderr "TIMEOUT", without
    awaiting the two output-capture tasks it started (their capture is
    discarded). The code 124 is not reserved for timeouts. *)
Theorem run_command_timeout (timeout_sec max_capture_chars : nat) (p : Proc) :
  exceeds_timeout timeout_sec p ->
  run_command_logged timeout_sec max_capture_chars (Spawned p)
  = (mkCmdResult 124 "" "TIMEOUT" (timeout_sec * 1000),
     [EvSpawn; EvStartReader Stdout; EvStartReader Stderr; EvKill; EvWaitKilled]).
Proof.
  unfold exceeds_timeout, run_command_logged. intros H.
  destruct (p_runtime_ms p) as [t|]; [|reflexivity].
  destruct (Nat.leb t (timeout_sec * 1000)) eqn:E; [|reflexivity].
  apply Nat.leb_le in E. lia.
Qed.

Lemma run_command_timeout_witness :
  exceeds_timeout 2 (mkProc (Some 5000) 0 ["x"] []) /\
  run_command_logged 2 80 (Spawned (mkProc (Some 5000) 0 ["x"] []))
  = (mkCmdResult 124 "" "TIMEOUT" (2 * 1000),
     [EvSpawn; EvStartReader Stdout; EvStartReader Stderr; EvKill; EvWaitKilled]).
Proof.
  split; [unfold exceeds_timeout; simpl; lia|].
  apply (run_command_timeout 2 80 (mkProc (Some 5000) 0 ["x"] [])).
  unfold exceeds_timeout; simpl; lia.
Defined.

End SupervisorClaims.

Module DxCtlClaims.
Import DxCtl.

(** Claim C6, as stated, fails: [update_project_bom] sends one request
    and, on a 503, returns [False] with no retry and no error text. *)
Lemma C6_counterexample :
  update_project_bom true (fun _ => mkResponse 503 "Service Unavailable" None)
  = (Ret false, [HttpPost]).
Proof. reflexivity. Qed.

Lemma err_of_nonempty (r : Response) : String.eqb (_err_of r) "" = false.
Proof. unfold _err_of. destruct (string_of_nat (status_code r)); reflexivity. Qed.

Definition retried (ev : HttpEvent) (k : nat) : list HttpEvent :=
  concat (repeat [ev; Sleep1s] k).

(** Claim C6 (amended): [create_project] and [delete_project] make at
    most three requests, sleeping one second after each failed one,
    and retry on every response outside their success set (201 for
    create; 200, 202, 204 or 404 for delete). They stop at the first
    success, and after three failures they raise with the status and
    the first 2000 characters of the body of the last response.
    [update_project_bom] makes one request (none when the file is
    missing), returns whether the status is 200 or 201, and neither
    retries nor reports error text. *)
Theorem dx_calls_retry :
  (forall srv : Server,
     (forall j, j < 3 -> status_code (srv j) <> 201) ->
     create_project srv
     = (Raise ("DX_CREATE_PROJECT_FAILED: " ++ _err_of (srv 2))%string, retried HttpPut 3)) /\
  (forall (srv : Server) (k : nat),
     k < 3 -> (forall j, j < k -> status_code (srv j) <> 201) ->
     status_code (srv k) = 201 ->
     exists o, create_project srv = (o, retried HttpPut k ++ [HttpPut])) /\
  (forall srv : Server,
     (forall j, j < 3 -> delete_ok (status_code (srv j)) = false) ->
     delete_project srv
     = (Raise ("DX_DELETE_PROJECT_FAILED: " ++ _err_of (srv 2))%string, retried HttpDelete 3)) /\
  (forall (srv : Server) (k : nat),
     k < 3 -> (forall j, j < k -> delete_ok (status_code (srv j)) = false) ->
     delete_ok (status_code (srv k)) = true ->
     delete_project srv = (Ret true, retried HttpDelete k ++ [HttpDelete])) /\
  (forall (srv : Server) (file_exists : bool),
     update_project_bom file_exists srv
     = if file_exists
       then (Ret (Nat.eqb (status_code (srv 0)) 200 || Nat.eqb (status_code (srv 0)) 201),
             [HttpPost])
       else (Ret false, [])).
Proof.
  assert (Hne : forall (srv : Server) j, status_code (srv j) <> 201 ->
                  Nat.eqb (status_code (srv j)) 201 = false)
    by (intros; apply Nat.eqb_neq; assumption).
  split; [|split; [|split; [|split]]].
  - intros srv H. unfold create_project. simpl.
    rewrite !Hne by (apply H; lia). rewrite err_of_nonempty. reflexivity.
  - intros srv k Hk Hb Hs. unfold create_project.
    destruct k as [|[|[|k]]]; [| | |lia]; simpl;
      repeat (rewrite Hne by (apply Hb; lia));
      rewrite Hs; simpl; destruct (json_uuid _) as [u|];
      try destruct (String.eqb u ""); eexists; reflexivity.
  - intros srv H. unfold delete_project. simpl.
    rewrite !H by lia. rewrite err_of_nonempty. reflexivity.
  - intros srv k Hk Hb Hs. unfold delete_project.
    destruct k as [|[|[|k]]]; [| | |lia]; simpl;
      repeat (rewrite Hb by lia); rewrite Hs; reflexivity.
  - intros srv [|]; reflexivity.
Qed.

End DxCtlClaims.

Module RootLocatorProofs.
Import RootLocator.

Definition sumn (l : list nat) : nat := fold_right Nat.add 0 l.

Lemma sumn_app (a b : list nat) : sumn (a ++ b) = sumn a + sumn b.
Proof. induction a; simpl; [reflexivity|]. unfold sumn in *. simpl. rewrite IHa. lia. Qed.

Section LocatorProofs.
Variable fs : FS.
Variable M : Z.

Definition measure (q : list (path * nat)) : nat :=
  sumn (map (fun e => subtree_count fs (levels M (snd e)) (fst e)) q).

Lemma subtree_count_pos (k : nat) (p : path) : 1 <= subtree_count fs k p.
Proof. destruct k; simpl; lia. Qed.

Lemma levels_step (depth : nat) :
  (Z.of_nat depth <= M)%Z -> levels M depth = S (levels M (S depth)).
Proof. unfold levels. intros H. rewrite Nat2Z.inj_succ. lia. Qed.

Lemma measure_app (a b : list (path * nat)) : measure (a ++ b) = measure a + measure b.
Proof. unfold measure. rewrite map_app. apply sumn_app. Qed.

Lemma measure_children (l : list path) (k : nat) :
  measure (map (fun c => (c, k)) l) = sumn (map (subtree_count fs (levels M k)) l).
Proof. induction l; simpl; [reflexivity|]. unfold measure in *. simpl. rewrite IHl. reflexivity. Qed.

Lemma bfs_some : forall fuel q seen best bs,
  measure q < fuel -> exists r, bfs fs M fuel q seen best bs = Some r.
Proof.
  induction fuel as [|fuel IH]; intros q seen best bs H; [lia|].
  destruct q as [|[cur depth] rest]; simpl; [eexists; reflexivity|].
  unfold measure in H; simpl in H. fold (measure rest) in H.
  pose proof (subtree_count_pos (levels M depth) cur).
  destruct (existsb (path_eqb cur) seen); [apply IH; lia|].
  destruct (Z.of_nat depth >? M)%Z eqn:Hd; zcases; [apply IH; lia|].
  rewrite (levels_step depth Hd) in H. simpl in H.
  destruct (_score_root_candidate fs cur >? bs)%Z; apply IH;
    rewrite measure_app, measure_children; unfold sumn in *; lia.
Qed.

Lemma reach_length (d p : path) (k : nat) :
  reach fs M d p k -> length p = length d + k.
Proof.
  induction 1 as [|p k c Hr IH Hk Hc]; [lia|].
  unfold children in Hc. destruct (fs_list_dir fs p); [|contradiction].
  apply in_map_iff in Hc as [n [<- _]]. rewrite length_app. simpl. lia.
Qed.

Lemma reach_depth_unique (d p : path) (k k' : nat) :
  reach fs M d p k -> reach fs M d p k' -> k = k'.
Proof.
  intros H1 H2. apply reach_length in H1. apply reach_length in H2. lia.
Qed.

Lemma path_eqb_true (a b : path) : path_eqb a b = true <-> a = b.
Proof. unfold path_eqb. destruct (list_eq_dec string_dec a b); split; congruence. Qed.

Lemma existsb_seen (cur : path) (seen : list path) :
  existsb (path_eqb cur) seen = true <-> In cur seen.
Proof.
  rewrite existsb_exists. split.
  - intros [x [Hx He]]. apply path_eqb_true in He. subst. exact Hx.
  - intros H. exists cur. split; [exact H|]. apply path_eqb_true. reflexivity.
Qed.

Abbreviation score := (_score_root_candidate fs).

(** The loop invariant of the scan from [d]. *)
Record Inv (d : path) (q : list (path * nat)) (seen : list path) (best : path) (bs : Z)
    : Prop := {
  inv_queue : forall p k, In (p, k) q -> reach fs M d p k;
  inv_seen : forall s, In s seen -> exists k, reach fs M d s k;
  inv_score : bs = score best;
  inv_best : best = d \/ ((exists k, scored fs M d best k) /\ (score d < bs)%Z);
  inv_bound : forall s k, In s seen -> reach fs M d s k -> (Z.of_nat k <= M)%Z ->
              (score s <= bs)%Z;
  inv_closed : forall s k c, In s seen -> reach fs M d s k -> (Z.of_nat k <= M)%Z ->
               In c (children fs s) -> In c seen \/ exists k', In (c, k') q;
  inv_root : In d seen \/ exists k, In (d, k) q
}.

Lemma inv_init (d : path) : Inv d [(d, 0)] [] d (score d).
Proof.
  constructor; simpl.
  - intros p k [H|[]]. injection H as <- <-. constructor.
  - intros s [].
  - reflexivity.
  - left; reflexivity.
  - intros s k [].
  - intros s k c [].
  - right. exists 0. left. reflexivity.
Qed.

Lemma score_le_best (d : path) q seen best bs :
  Inv d q seen best bs -> (score d <= bs)%Z.
Proof.
  intros I. destruct (inv_best _ _ _ _ _ I) as [->|[_ H]]; [|lia].
  rewrite (inv_score _ _ _ _ _ I). lia.
Qed.

Lemma inv_step (d : path) cur depth rest seen best bs :
  Inv d ((cur, depth) :: rest) seen best bs ->
  (In cur seen -> Inv d rest seen best bs) /\
  (~ In cur seen -> (Z.of_nat depth > M)%Z -> Inv d rest (cur :: seen) best bs) /\
  (~ In cur seen -> (Z.of_nat depth <= M)%Z ->
   let '(best', bs') := if (score cur >? bs)%Z then (cur, score cur) else (best, bs) in
   Inv d (rest ++ map (fun c => (c, S depth)) (children fs cur)) (cur :: seen) best' bs').
Proof.
  intros I. pose proof (inv_queue _ _ _ _ _ I cur depth (or_introl eq_refl)) as Hcur.
  split; [|split].
  - intros Hin. constructor.
    + intros p k H. apply (inv_queue _ _ _ _ _ I). right. exact H.
    + apply (inv_seen _ _ _ _ _ I).
    + apply (inv_score _ _ _ _ _ I).
    + apply (inv_best _ _ _ _ _ I).
    + apply (inv_bound _ _ _ _ _ I).
    + intros s k c Hs Hr Hk Hc.
      destruct (inv_closed _ _ _ _ _ I s k c Hs Hr Hk Hc) as [H|[k' [H|H]]].
      * left; exact H.
      * injection H as -> _. left; exact Hin.
      * right; exists k'; exact H.
    + destruct (inv_root _ _ _ _ _ I) as [H|[k [H|H]]].
      * left; exact H.
      * injection H as -> _. left; exact Hin.
      * right; exists k; exact H.
  - intros Hnin Hd. constructor.
    + intros p k H. apply (inv_queue _ _ _ _ _ I). right. exact H.
    + intros s [<-|Hs]; [exists depth; exact Hcur|]. apply (inv_seen _ _ _ _ _ I), Hs.
    + apply (inv_score _ _ _ _ _ I).
    + apply (inv_best _ _ _ _ _ I).
    + intros s k [<-|Hs] Hr Hk.
      * rewrite (reach_depth_unique _ _ _ _ Hr Hcur) in Hk. lia.
      * apply (inv_bound _ _ _ _ _ I s k Hs Hr Hk).
    + intros s k c [<-|Hs] Hr Hk Hc.
      * rewrite (reach_depth_unique _ _ _ _ Hr Hcur) in Hk. lia.
      * destruct (inv_closed _ _ _ _ _ I s k c Hs Hr Hk Hc) as [H|[k' [H|H]]].
        -- left; right; exact H.
        -- injection H as -> _. left; left; reflexivity.
        -- right; exists k'; exact H.
    + destruct (inv_root _ _ _ _ _ I) as [H|[k [H|H]]].
      * left; right; exact H.
      * injection H as -> _. left; left; reflexivity.
      * right; exists k; exact H.
  - intros Hnin Hd. pose proof (score_le_best d _ _ _ _ I) as Hdb.
    assert (Hq : forall p k, In (p, k) (rest ++ map (fun c => (c, S depth)) (children fs cur)) ->
                 reach fs M d p k).
    { intros p k H. apply in_app_or in H as [H|H].
      - apply (inv_queue _ _ _ _ _ I). right. exact H.
      - apply in_map_iff in H as [c [He Hc]]. injection He as <- <-.
        econstructor; [exact Hcur | exact Hd | exact Hc]. }
    assert (Hs' : forall s, In s (cur :: seen) -> exists k, reach fs M d s k).
    { intros s [<-|Hs]; [exists depth; exact Hcur|]. apply (inv_seen _ _ _ _ _ I), Hs. }
    assert (Hcl : forall s k c, In s (cur :: seen) -> reach fs M d s k -> (Z.of_nat k <= M)%Z ->
              In c (children fs s) ->
              In c (cur :: seen) \/
              exists k', In (c, k') (rest ++ map (fun c => (c, S depth)) (children fs cur))).
    { intros s k c [<-|Hs] Hr Hk Hc.
      - right. exists (S depth). apply in_or_app. right.
        apply in_map_iff. exists c. split; [reflexivity|exact Hc].
      - destruct (inv_closed _ _ _ _ _ I s k c Hs Hr Hk Hc) as [H|[k' [H|H]]].
        + left; right; exact H.
        + injection H as -> _. left; left; reflexivity.
        + right; exists k'. apply in_or_app. left. exact H. }
    assert (Hrt : In d (cur :: seen) \/
                  exists k, In (d, k) (rest ++ map (fun c => (c, S depth)) (children fs cur))).
    { destruct (inv_root _ _ _ _ _ I) as [H|[k [H|H]]].
      - left; right; exact H.
      - injection H as -> _. left; left; reflexivity.
      - right; exists k. apply in_or_app. left. exact H. }
    destruct (score cur >? bs)%Z eqn:Hsc; zcases.
    + constructor; auto.
      * right. split; [exists depth; split; assumption | lia].
      * intros s k [<-|Hs] Hr Hk; [lia|].
        pose proof (inv_bound _ _ _ _ _ I s k Hs Hr Hk). lia.
    + constructor; auto.
      * apply (inv_score _ _ _ _ _ I).
      * apply (inv_best _ _ _ _ _ I).
      * intros s k [<-|Hs] Hr Hk; [lia|].
        apply (inv_bound _ _ _ _ _ I s k Hs Hr Hk).
Qed.

(** What the scan guarantees about the directory it returns. *)
Definition scan_result (d r : path) : Prop :=
  (r = d \/ ((exists k, scored fs M d r k) /\ (score d < score r)%Z)) /\
  (forall p k, scored fs M d p k -> (score p <= score r)%Z) /\
  (score d <= score r)%Z.

Lemma inv_final (d : path) seen best bs :
  Inv d [] seen best bs -> scan_result d best.
Proof.
  intros I. pose proof (inv_score _ _ _ _ _ I) as Hs. subst bs.
  assert (Hcov : forall p k, reach fs M d p k -> (Z.of_nat k <= M)%Z -> In p seen).
  { induction 1 as [|p k c Hr IH Hk Hc]; intros Hk'.
    - destruct (inv_root _ _ _ _ _ I) as [H|[k []]]. exact H.
    - destruct (inv_closed _ _ _ _ _ I p k c (IH Hk) Hr Hk Hc) as [H|[k' []]]. exact H. }
  split; [|split].
  - apply (inv_best _ _ _ _ _ I).
  - intros p k [Hr Hk]. apply (inv_bound _ _ _ _ _ I p k (Hcov p k Hr Hk) Hr Hk).
  - apply (score_le_best d _ _ _ _ I).
Qed.

Lemma bfs_correct (d : path) : forall fuel q seen best bs r,
  Inv d q seen best bs -> bfs fs M fuel q seen best bs = Some r -> scan_result d r.
Proof.
  induction fuel as [|fuel IH]; intros q seen best bs r I H; [discriminate|].
  destruct q as [|[cur depth] rest]; simpl in H.
  - injection H as <-. apply (inv_final d seen best bs I).
  - destruct (inv_step d cur depth rest seen best bs I) as [Ha [Hb Hc]].
    destruct (existsb (path_eqb cur) seen) eqn:Hin.
    + apply existsb_seen in Hin. eapply IH; [apply Ha, Hin | exact H].
    + assert (Hn : ~ In cur seen) by (rewrite <- existsb_seen; congruence).
      destruct (Z.of_nat depth >? M)%Z eqn:Hd; zcases.
      * eapply IH; [apply Hb; [exact Hn | lia] | exact H].
      * specialize (Hc Hn Hd).
        destruct (score cur >? bs)%Z; eapply IH; eassumption.
Qed.

Lemma fold_score_ge (p : path) : forall l acc, (acc <= fold_left
    (fun acc name => if fs_exists fs (path_join p name) then (acc + 2)%Z else acc) l acc)%Z.
Proof.
  induction l as [|x l IH]; intros acc; cbn [fold_left]; [lia|].
  specialize (IH (if fs_exists fs (path_join p x) then (acc + 2)%Z else acc)).
  destruct (fs_exists fs (path_join p x)); lia.
Qed.

Lemma score_nonneg (p : path) : fs_is_dir fs p = true -> (0 <= score p)%Z.
Proof.
  intros H. unfold _score_root_candidate. rewrite H. cbn [negb].
  pose proof (fold_score_ge p ROOT_HINT_FILES 0%Z) as Hf.
  revert Hf.
  generalize (fold_left
      (fun acc name => if fs_exists fs (path_join p name) then (acc + 2)%Z else acc)
      ROOT_HINT_FILES 0%Z).
  intros z Hz.
  destruct (fs_is_dir fs (path_join p "src")), (fs_is_dir fs (path_join p "app")); lia.
Qed.

Lemma score_cases (p : path) :
  (score p = -1 /\ fs_is_dir fs p = false)%Z \/ (0 <= score p /\ fs_is_dir fs p = true)%Z.
Proof.
  destruct (fs_is_dir fs p) eqn:H.
  - right. split; [apply score_nonneg, H | reflexivity].
  - left. unfold _score_root_candidate. rewrite H. split; reflexivity.
Qed.

Lemma scan_from_root (d : path) :
  exists r, bfs fs M (root_fuel fs M d) [(d, 0)] [] d (score d) = Some r /\ scan_result d r.
Proof.
  destruct (bfs_some (root_fuel fs M d) [(d, 0)] [] d (score d)) as [r Hr].
  - unfold measure, root_fuel, sumn. simpl. lia.
  - exists r. split; [exact Hr|]. exact (bfs_correct d _ _ _ _ _ r (inv_init d) Hr).
Qed.

End LocatorProofs.

End RootLocatorProofs.

Module RootLocatorClaims.
Import RootLocator RootLocatorProofs.

(** An extraction directory [/srv/job] holding one directory [proj]
    with a [requirements.txt]; nothing is a symbolic link. *)
Definition job_dir : path := ["srv"; "job"].

Definition job_fs : FS := {|
  fs_resolve := fun p => p;
  fs_exists := fun p => existsb (path_eqb p)
      [job_dir; job_dir ++ ["proj"]; job_dir ++ ["proj"; "requirements.txt"]];
  fs_is_dir := fun p => existsb (path_eqb p) [job_dir; job_dir ++ ["proj"]];
  fs_list_dir := fun p =>
      if path_eqb p job_dir then Some ["proj"]
      else if path_eqb p (job_dir ++ ["proj"]) then Some ["requirements.txt"]
      else None
|}.

Lemma hint_hit_false (fs : FS) (d : path) (hint : option string) :
  hint_hit fs d hint = false <->
  hint = None \/ hint = Some "" \/
  exists h, hint = Some h /\
    (fs_exists fs (path_join d h) = false \/ fs_is_dir fs (path_join d h) = false).
Proof.
  destruct hint as [h|]; simpl.
  - destruct (String.eqb h "") eqn:He; simpl.
    + apply String.eqb_eq in He. subst h. split; [intros _; right; left; reflexivity|reflexivity].
    + split.
      * intros H. right; right. exists h. split; [reflexivity|].
        destruct (fs_exists fs (path_join d h)); [right; exact H | left; reflexivity].
      * intros [H|[H|[h' [H Hf]]]]; try discriminate.
        -- injection H as ->. rewrite String.eqb_refl in He. discriminate.
        -- injection H as <-. destruct Hf as [Hf|Hf]; rewrite Hf;
             [reflexivity|apply andb_false_r].
  - split; [intros _; left; reflexivity|reflexivity].
Qed.

(** C7 (counterexample): with the empty hint, which the upload of a
    file named [.zip] passes, [destDir / ""] is [destDir] itself and is
    an existing directory, yet the locator does not return it: it returns
    the child [proj], which scores higher. *)
Lemma C7_counterexample :
  fs_exists job_fs (path_join job_dir "") = true /\
  fs_is_dir job_fs (path_join job_dir "") = true /\
  path_join job_dir "" = job_dir /\
  _detect_project_root job_fs 4 job_dir (Some "") = Some (job_dir ++ ["proj"]) /\
  job_dir ++ ["proj"] <> path_join job_dir "".
Proof. vm_compute. repeat split; discriminate. Qed.

(** C7 (amended): the locator always returns a directory path. For a
    non-empty hint such that [destDir / hint] exists and is a directory,
    it returns [destDir / hint]. In every other case (no hint, the empty
    hint, or [destDir / hint] missing or not a directory), it returns
    [destDir] or a directory reached by the scan within the depth bound
    whose score is above that of [destDir]; no directory the scan reaches
    within the bound scores higher than the result; and when [destDir] is
    a directory and no such directory scores above zero, the result is
    [destDir] itself. Here [destDir] is the resolved extraction directory. *)
Theorem detect_project_root_total (fs : FS) (M : Z) (dest : path) (hint : option string) :
  let d := fs_resolve fs dest in
  exists r, _detect_project_root fs M dest hint = Some r /\
    (forall h, hint = Some h -> h <> "" -> fs_exists fs (path_join d h) = true ->
       fs_is_dir fs (path_join d h) = true -> r = path_join d h) /\
    ((hint = None \/ hint = Some "" \/
      exists h, hint = Some h /\
        (fs_exists fs (path_join d h) = false \/ fs_is_dir fs (path_join d h) = false)) ->
     (r = d \/
      (fs_is_dir fs r = true /\ (exists k, scored fs M d r k) /\
       (_score_root_candidate fs d < _score_root_candidate fs r)%Z)) /\
     (forall p k, scored fs M d p k -> (_score_root_candidate fs p <= _score_root_candidate fs r)%Z) /\
     (fs_is_dir fs d = true ->
      (forall p k, scored fs M d p k -> (_score_root_candidate fs p <= 0)%Z) -> r = d)).
Proof.
  intros d.
  destruct (scan_from_root fs M d) as [r0 [Hbfs [[Hb|[Hsc Hlt]] [Hmax Hge]]]].
  - destruct (hint_hit fs d hint) eqn:Hh.
    + destruct hint as [h|]; [|discriminate].
      exists (path_join d h). split.
      * unfold _detect_project_root. fold d. rewrite Hh. reflexivity.
      * split; [intros h' E _ _ _; injection E as <-; reflexivity|].
        intros Hn. apply hint_hit_false in Hn. congruence.
    + exists r0. split.
      * unfold _detect_project_root. fold d. destruct hint; [rewrite Hh|]; exact Hbfs.
      * split.
        -- intros h -> Hne He Hd. simpl in Hh. rewrite He, Hd in Hh.
           apply String.eqb_neq in Hne. rewrite Hne in Hh. discriminate.
        -- intros _. split; [left; exact Hb|]. split; [exact Hmax|]. intros _ _. exact Hb.
  - destruct (hint_hit fs d hint) eqn:Hh.
    + destruct hint as [h|]; [|discriminate].
      exists (path_join d h). split.
      * unfold _detect_project_root. fold d. rewrite Hh. reflexivity.
      * split; [intros h' E _ _ _; injection E as <-; reflexivity|].
        intros Hn. apply hint_hit_false in Hn. congruence.
    + exists r0. split.
      * unfold _detect_project_root. fold d. destruct hint; [rewrite Hh|]; exact Hbfs.
      * split.
        -- intros h -> Hne He Hd. simpl in Hh. rewrite He, Hd in Hh.
           apply String.eqb_neq in Hne. rewrite Hne in Hh. discriminate.
        -- intros _. split; [|split; [exact Hmax|]].
           ++ right. split; [|split; [exact Hsc | exact Hlt]].
              destruct (score_cases fs d) as [[Hd _]|[Hd _]];
              destruct (score_cases fs r0) as [[Hr _]|[_ Hr]]; try exact Hr; lia.
           ++ intros Hdir Hall. destruct Hsc as [k Hk]. pose proof (Hall r0 k Hk).
              destruct (score_cases fs d) as [[_ Hd]|[Hd _]]; [congruence|]. lia.
Qed.

End RootLocatorClaims.

Module PipelineProofs.
Import DxCtl Pipeline.

(** [tr = tr1 ++ WriteStatus (-1) m :: tr2] forces [tr2 = []]: a
    Failed write is the last step of the trace. *)
Fixpoint fail_last (tr : list Step) : bool :=
  match tr with
  | [] => true
  | WriteStatus s _ :: rest =>
      if (s =? -1)%Z then match rest with [] => true | _ => false end else fail_last rest
  | _ :: rest => fail_last rest
  end.

Lemma fail_last_spec (tr : list Step) :
  fail_last tr = true -> forall tr1 m tr2, tr = tr1 ++ WriteStatus (-1) m :: tr2 -> tr2 = [].
Proof.
  induction tr as [|e tr IH]; intros H tr1 m tr2 E.
  - destruct tr1; discriminate.
  - destruct tr1 as [|e1 tr1]; simpl in E; injection E as He E; subst e.
    + simpl in H. subst tr. destruct tr2; [reflexivity|discriminate].
    + refine (IH _ tr1 m tr2 E).
      destruct e1 as [s msg| |]; simpl in H; try exact H.
      destruct (s =? -1)%Z; [|exact H]. destruct tr; [destruct tr1; discriminate|discriminate].
Qed.

Lemma statuses_app (a b : list Step) : statuses (a ++ b) = statuses a ++ statuses b.
Proof. induction a as [|[s m| |] a IH]; simpl; rewrite ?IH; reflexivity. Qed.

Ltac pipe_red := cbv beta iota zeta delta [negb fst snd].

(** Split on the next undecided call of the environment. *)
Ltac pipe_case :=
  repeat (pipe_red;
    match goal with
    | |- context [match ?x with _ => _ end] =>
        lazymatch x with
        | context [match _ with _ => _ end] => fail
        | _ => let E := fresh "E" in destruct x eqn:E
        end
    end).

Ltac unfold_pipeline :=
  unfold main, extract_archive, _do_extract, make_dx_bom, run_pre, update_project_bom,
    run_command, _update_status, bind, ret, lift.

Lemma main_lifecycle (T C : nat) (w : World) (lang uuid : string) :
  match main T C w lang uuid [] with
  | (_, tr) => valid_from 0 (statuses tr) && fail_last tr = true
  end.
Proof. unfold_pipeline. pipe_case; reflexivity. Qed.


End PipelineProofs.

Module PipelineClaims.
Import DxCtl Pipeline PipelineProofs.

(** A run on a Java project at [/srv/job] with [cdxgen] installed, every
    command exiting 0 after 10 ms, and the tracking service answering 200. *)
Definition run_root : path := ["srv"; "job"].

Definition java_host : Registry.Host :=
  Registry.mkHost (fun t => if String.eqb t "cdxgen" then Some "/usr/bin/cdxgen" else None)
    "/usr/bin/python3" (fun _ => false).

Definition java_world (output_exists : bool) (post_error : option string) : World := {|
  w_db_raises := fun _ => None;
  w_do_extract := Ret (true, None);
  w_detect := Ret run_root;
  w_redetect := Ret run_root;
  w_exists := fun s => Ret (if String.eqb s (path_str run_root) then true else output_exists);
  w_host := fun _ => java_host;
  w_spawn := fun _ => Supervisor.Spawned (Supervisor.mkProc (Some 10) 0 [] []);
  w_open := fun _ => Opened;
  w_post_raises := post_error;
  w_dx := fun _ => mkResponse 200 "" None
|}.

(** The command [build_bom_command] builds for that project. *)
Definition java_cmd : Registry.BomCommand :=
  match fst (Registry.build_bom_command java_host "java" "u1" (path_str run_root)) with
  | Some c => c
  | None => Registry.mkBomCommand [] "" "" "" None
  end.

(** C8: in every run the persisted status values go forward one step
    at a time from 0 (1, 2, 3) or move to -1 from a state that is neither
    3 nor -1; once -1 is written nothing follows it in the trace: no
    further status write, command or upload. *)
Theorem status_writes_lifecycle (T C : nat) (w : World) (lang uuid : string) :
  match main T C w lang uuid [] with
  | (_, tr) =>
      valid_from 0 (statuses tr) = true /\
      (forall tr1 m tr2, tr = tr1 ++ WriteStatus (-1) m :: tr2 -> tr2 = [])
  end.
Proof.
  pose proof (main_lifecycle T C w lang uuid) as H.
  destruct (main T C w lang uuid []) as [o tr].
  apply andb_prop in H as [H1 H2]. split; [exact H1|]. apply fail_last_spec, H2.
Qed.



(** C10: when extraction succeeded, the root was located, a command was
    built, the commands exited 0, but the output file does not exist,
    [make_dx_bom] writes -1 with its diagnostic and returns no artifact
    name, [main] returns [False], and the run never calls the upload. *)
Theorem missing_output_no_upload (T C : nat) (w : World) (lang uuid : string)
    (root : path) (c : Registry.BomCommand) (wm : list (string * option string))
    (err : option string) :
  (forall s, w_db_raises w s = None) ->
  w_do_extract w = Ret (true, err) ->
  w_detect w = Ret root ->
  w_exists w (path_str root) = Ret true ->
  Registry.build_bom_command (w_host w root) lang uuid (path_str root) = (Some c, wm) ->
  (forall pa, Registry.pre_args c = Some pa -> pa <> [] ->
     Supervisor.returncode (fst (Supervisor.run_command_logged T C (w_spawn w pa))) = 0%Z) ->
  Supervisor.returncode (fst (Supervisor.run_command_logged T C (w_spawn w (Registry.args c)))) = 0%Z ->
  w_exists w (Registry.output c) = Ret false ->
  exists tr,
    make_dx_bom T C w lang uuid [WriteStatus 1 None] = (Ret None, tr) /\
    main T C w lang uuid [] = (Ret false, tr) /\
    statuses tr = [1; 2; -1]%Z /\
    last tr (WriteStatus 0 None) =
      WriteStatus (-1) (Some "生成bom失败：命令执行成功但未发现输出文件") /\
    forallb (fun s => negb (is_upload s)) tr = true.
Proof.
  intros Hdb Hx Hd He Hb Hpre Hrc Ho.
  assert (Hmake : exists cmds, forallb (fun s => negb (is_upload s)) cmds = true /\
            statuses cmds = [] /\
            make_dx_bom T C w lang uuid [WriteStatus 1 None] =
              (Ret None, [WriteStatus 1 None; WriteStatus 2 None] ++ cmds ++
                 [WriteStatus (-1) (Some "生成bom失败：命令执行成功但未发现输出文件")])).
  { destruct (Supervisor.run_command_logged T C (w_spawn w (Registry.args c))) as [r ev] eqn:Hr.
    simpl in Hrc.
    unfold make_dx_bom, run_pre, run_command, _update_status, bind, ret, lift.
    rewrite !Hdb, Hd, He, Hb. cbv beta iota zeta delta [negb fst snd].
    rewrite Hr, Ho. cbv beta iota zeta delta [negb fst snd].
    destruct (Registry.pre_args c) as [[|a l]|] eqn:Hp.
    - cbv beta iota zeta delta [negb fst snd]. rewrite Hrc. cbv beta iota zeta delta [negb Z.eqb].
      exists [RunCommand (Registry.args c)]. split; [reflexivity|]. split; [reflexivity|].
      reflexivity.
    - cbv beta iota zeta delta [negb fst snd].
      pose proof (Hpre (a :: l) eq_refl ltac:(discriminate)) as Hpr0.
      destruct (Supervisor.run_command_logged T C (w_spawn w (a :: l))) as [pr pev] eqn:Hpr.
      simpl in Hpr0. cbv beta iota zeta delta [negb fst snd]. rewrite Hpr0, Hrc.
      cbv beta iota zeta delta [negb Z.eqb].
      exists [RunCommand (a :: l); RunCommand (Registry.args c)].
      split; [reflexivity|]. split; [reflexivity|]. rewrite <- !app_assoc. reflexivity.
    - cbv beta iota zeta delta [negb fst snd]. rewrite Hrc. cbv beta iota zeta delta [negb Z.eqb].
      exists [RunCommand (Registry.args c)]. split; [reflexivity|]. split; [reflexivity|].
      reflexivity. }
  destruct Hmake as [cmds [Hu [Hs Hm]]].
  eexists. split; [exact Hm|]. split.
  - unfold main, extract_archive, _do_extract, _update_status, bind, ret.
    rewrite !Hdb, Hx. cbv beta iota zeta delta [negb app]. fold (app cmds).
    unfold bind, ret, lift in Hm. rewrite Hm. reflexivity.
  - split; [|split].
    + rewrite !statuses_app. rewrite Hs. reflexivity.
    + rewrite app_assoc. apply last_last.
    + rewrite !forallb_app. rewrite Hu. reflexivity.
Qed.

(** C10: a run whose main command exits 0 without producing its output
    file meets every assumption above. *)
Lemma missing_output_no_upload_witness :
  exists tr,
    make_dx_bom 2 80 (java_world false None) "java" "u1" [WriteStatus 1 None] = (Ret None, tr) /\
    main 2 80 (java_world false None) "java" "u1" [] = (Ret false, tr) /\
    statuses tr = [1; 2; -1]%Z /\
    last tr (WriteStatus 0 None) =
      WriteStatus (-1) (Some "生成bom失败：命令执行成功但未发现输出文件") /\
    forallb (fun s => negb (is_upload s)) tr = true.
Proof.
  apply (missing_output_no_upload 2 80 (java_world false None) "java" "u1" run_root java_cmd
           (snd (Registry.build_bom_command java_host "java" "u1" (path_str run_root))) None).
  all: try (intros; reflexivity).
Defined.

End PipelineClaims.

Module EnvProofs.
Import Env.

Lemma split_on_nil (sep : ascii) (s : string) : split_on sep s <> [].
Proof.
  destruct s as [|c s]; simpl; [discriminate|].
  destruct (Ascii.eqb c sep); [discriminate|]. destruct (split_on sep s); discriminate.
Qed.

Lemma split_on_app_sep (sep : ascii) (a b : string) :
  split_on sep (a ++ String sep b) = split_on sep a ++ split_on sep b.
Proof.
  induction a as [|c a IH]; simpl.
  - rewrite Ascii.eqb_refl. reflexivity.
  - rewrite IH. destruct (Ascii.eqb c sep); [reflexivity|].
    destruct (split_on sep a) eqn:E; [exfalso; exact (split_on_nil sep a E)|]. reflexivity.
Qed.

Lemma split_on_concat (sep : ascii) (l : list string) :
  l <> [] -> split_on sep (String.concat (String sep EmptyString) l) = List.concat (map (split_on sep) l).
Proof.
  induction l as [|x l IH]; intros H; [contradiction|].
  destruct l as [|y l].
  - simpl. rewrite app_nil_r. reflexivity.
  - change (String.concat (String sep EmptyString) (x :: y :: l))
      with (x ++ String sep (String.concat (String sep EmptyString) (y :: l)))%string.
    rewrite split_on_app_sep. rewrite IH by discriminate. reflexivity.
Qed.

Lemma split_on_nosep (sep : ascii) (s : string) :
  has_char sep s = false -> split_on sep s = [s].
Proof.
  induction s as [|c s IH]; simpl; [reflexivity|].
  intros H. apply orb_false_iff in H as [H1 H2].
  unfold char_eqb in H1. rewrite Ascii.eqb_sym, H1, IH by exact H2. reflexivity.
Qed.

Lemma split_on_elems (sep : ascii) (s x : string) :
  In x (split_on sep s) -> has_char sep x = false.
Proof.
  revert x. induction s as [|c s IH]; simpl; intros x Hx.
  - destruct Hx as [<-|[]]. reflexivity.
  - destruct (Ascii.eqb c sep) eqn:Ec.
    + destruct Hx as [<-|Hx]; [reflexivity|]. apply IH, Hx.
    + destruct (split_on sep s) as [|w ws] eqn:E; [exfalso; exact (split_on_nil sep s E)|].
      destruct Hx as [<-|Hx].
      * simpl. unfold char_eqb. rewrite Ascii.eqb_sym, Ec. apply IH. left. reflexivity.
      * apply IH. right. exact Hx.
Qed.

Lemma existsb_eqb_In (x : string) (l : list string) : existsb (String.eqb x) l = true <-> In x l.
Proof.
  rewrite existsb_exists. split.
  - intros [y [Hy E]]. apply String.eqb_eq in E. subst. exact Hy.
  - intros H. exists x. split; [exact H|]. apply String.eqb_refl.
Qed.

Lemma dedup_In (seen ps : list string) (x : string) :
  In x (dedup_parts seen ps) <-> x <> "" /\ In x ps /\ ~ In x seen.
Proof.
  revert seen. induction ps as [|p ps IH]; intros seen; simpl.
  - split; [intros []|intros [_ [[] _]]].
  - destruct (negb (String.eqb p "") && negb (existsb (String.eqb p) seen)) eqn:Hk.
    + apply andb_true_iff in Hk as [H1 H2]. apply negb_true_iff in H1, H2.
      apply String.eqb_neq in H1. rewrite <- not_true_iff_false, existsb_eqb_In in H2.
      simpl. rewrite IH. split.
      * intros [<-|[Hx [Hps Hs]]]; [tauto|]. split; [exact Hx|]. split; [right; exact Hps|].
        intros Hs'. apply Hs. right. exact Hs'.
      * intros [Hx [[<-|Hps] Hs]]; [left; reflexivity|].
        destruct (String.eqb_spec p x) as [<-|Hne]; [left; reflexivity|right].
        split; [exact Hx|]. split; [exact Hps|]. intros [E|E]; [congruence|contradiction].
    + rewrite IH. apply andb_false_iff in Hk. split.
      * intros [Hx [Hps Hs]]. split; [exact Hx|]. split; [right; exact Hps|exact Hs].
      * intros [Hx [[<-|Hps] Hs]]; [|tauto]. exfalso.
        destruct Hk as [Hk|Hk]; apply negb_false_iff in Hk.
        -- apply String.eqb_eq in Hk. contradiction.
        -- apply existsb_eqb_In in Hk. contradiction.
Qed.

Lemma dedup_NoDup (seen ps : list string) : NoDup (dedup_parts seen ps).
Proof.
  revert seen. induction ps as [|p ps IH]; intros seen; simpl; [constructor|].
  destruct (negb (String.eqb p "") && negb (existsb (String.eqb p) seen)); [|apply IH].
  constructor; [|apply IH]. rewrite dedup_In. intros [_ [_ H]]. apply H. left. reflexivity.
Qed.

Lemma dedup_app (seen a b : list string) :
  dedup_parts seen (a ++ b) = dedup_parts seen a ++ dedup_parts (rev (dedup_parts seen a) ++ seen) b.
Proof.
  revert seen. induction a as [|p a IH]; intros seen; simpl; [reflexivity|].
  destruct (negb (String.eqb p "") && negb (existsb (String.eqb p) seen)); [|apply IH].
  simpl. rewrite IH, <- app_assoc. reflexivity.
Qed.

Lemma subproc_parts (exe : string) (cur : option string) :
  split_on ":"%char (_build_subproc_env exe cur) =
  dedup_parts [] (List.concat (map (split_on ":"%char) (path_prefix exe))
                  ++ split_on ":"%char (match cur with Some p => p | None => "" end)).
Proof.
  unfold _build_subproc_env.
  assert (Hin : split_on ":"%char (String.concat ":" (path_prefix exe ++ [match cur with Some p => p | None => "" end]))
    = List.concat (map (split_on ":"%char) (path_prefix exe))
      ++ split_on ":"%char (match cur with Some p => p | None => "" end)).
  { rewrite split_on_concat by (destruct (path_prefix exe); discriminate).
    rewrite map_app, concat_app. simpl. rewrite app_nil_r. reflexivity. }
  rewrite Hin. clear Hin.
  set (ps := List.concat (map (split_on ":"%char) (path_prefix exe)) ++ _).
  assert (Hne : dedup_parts [] ps <> []).
  { intros E. assert (Hin : In "/bin" (dedup_parts [] ps)).
    { apply dedup_In. split; [discriminate|]. split; [|intros []].
      subst ps. apply in_or_app. left. unfold path_prefix.
      rewrite map_app, concat_app. apply in_or_app. right. simpl. right; right; right.
      right; right; right; right. left. reflexivity. }
    rewrite E in Hin. exact Hin. }
  rewrite split_on_concat by exact Hne.
  assert (Hall : forall x, In x (dedup_parts [] ps) -> split_on ":"%char x = [x]).
  { intros x Hx. apply split_on_nosep. apply dedup_In in Hx as [_ [Hx _]].
    subst ps. apply in_app_or in Hx as [Hx|Hx].
    - apply in_concat in Hx as [l [Hl Hx]]. apply in_map_iff in Hl as [y [<- _]].
      exact (split_on_elems _ _ _ Hx).
    - exact (split_on_elems _ _ _ Hx). }
  clearbody ps. induction (dedup_parts [] ps) as [|x l IH]; [reflexivity|].
  simpl. rewrite (Hall x (or_introl eq_refl)). simpl. f_equal.
  destruct l; [reflexivity|]. apply IH; [discriminate|]. intros y Hy. apply Hall. right. exact Hy.
Qed.

End EnvProofs.

Module EnvClaims.
Import Env EnvProofs.

(** X1: the PATH that [_build_subproc_env] hands to subprocesses, split on
    ":", has no empty entry and no duplicate, and consists of the tool
    directories (the venv [bin] directory when there is one, then the eight
    fixed directories) followed by the entries of the inherited PATH that
    are not already among them. *)
Theorem subproc_path_shape (exe : string) (cur : option string) :
  let parts := split_on ":"%char (_build_subproc_env exe cur) in
  let tools := List.concat (map (split_on ":"%char) (path_prefix exe)) in
  let inherited := split_on ":"%char (match cur with Some p => p | None => "" end) in
  NoDup parts /\ ~ In "" parts /\
  exists L1 L2, parts = L1 ++ L2 /\
    (forall x, In x L1 <-> x <> "" /\ In x tools) /\
    (forall x, In x L2 <-> x <> "" /\ In x inherited /\ ~ In x tools).
Proof.
  cbv zeta. rewrite subproc_parts. split; [apply dedup_NoDup|]. split.
  { rewrite dedup_In. intros [H _]. apply H. reflexivity. }
  rewrite dedup_app. eexists; eexists. split; [reflexivity|]. split.
  - intros x. rewrite dedup_In. split; [intros [H1 [H2 _]]; tauto|intros [H1 H2]; repeat split; auto].
  - intros x. rewrite dedup_In, app_nil_r, <- in_rev, dedup_In. split.
    + intros [H1 [H2 H3]]. repeat split; auto. intros H4. apply H3. repeat split; auto.
    + intros [H1 [H2 H3]]. repeat split; auto. intros [_ [H4 _]]. contradiction.
Qed.

Lemma parent_str_nonempty (s : string) (parent : path) :
  last parent "" = "bin" -> parent_str s parent <> "".
Proof.
  intros Hl. unfold parent_str. destruct (starts_with_sep s).
  - destruct parent; simpl; discriminate.
  - destruct parent as [|x [|y l]]; [discriminate| |].
    + simpl in *. subst. discriminate.
    + change (String.concat "/" (x :: y :: l)) with (x ++ String "/" (String.concat "/" (y :: l)))%string.
      destruct x; discriminate.
Qed.

Lemma venv_bin_nonempty (exe v : string) : _venv_bin exe = Some v -> v <> "".
Proof.
  unfold _venv_bin. destruct (String.eqb (last (removelast (components exe)) "") "bin") eqn:E;
    [|discriminate].
  destruct (String.prefix "python" (last (components exe) "")); [|discriminate].
  intros H. injection H as <-. apply String.eqb_eq in E. apply parent_str_nonempty, E.
Qed.

(** X2: when [sys.executable] lies in a [bin] directory and is named
    python*, that directory (free of ":") is the first entry of the
    subprocess PATH, whatever the inherited PATH is. *)
Theorem venv_bin_first (exe v : string) (cur : option string) :
  _venv_bin exe = Some v -> has_char ":"%char v = false ->
  hd "" (split_on ":"%char (_build_subproc_env exe cur)) = v.
Proof.
  intros Hv Hc. rewrite subproc_parts. unfold path_prefix. rewrite Hv. simpl.
  rewrite (split_on_nosep _ _ Hc). simpl.
  destruct (String.eqb_spec v "") as [E|_]; [exfalso; exact (venv_bin_nonempty _ _ Hv E)|].
  reflexivity.
Qed.

Lemma venv_bin_first_witness :
  _venv_bin "/opt/venv/bin/python3" = Some "/opt/venv/bin" /\
  hd "" (split_on ":"%char (_build_subproc_env "/opt/venv/bin/python3" (Some "/usr/bin:/opt/venv/bin")))
  = "/opt/venv/bin".
Proof.
  split; [vm_compute; reflexivity|].
  apply venv_bin_first; vm_compute; reflexivity.
Defined.

Lemma format_arg_plain (s : string) :
  s <> "" ->
  has_char " "%char s = false -> has_char "009"%char s = false -> has_char "010"%char s = false ->
  has_char dquote s = false -> has_char "'"%char s = false ->
  format_arg s = s.
Proof.
  intros H0 H1 H2 H3 H4 H5. unfold format_arg.
  apply String.eqb_neq in H0. rewrite H0, H1, H2, H3, H4, H5. reflexivity.
Qed.

(** X3: [_format_cmd] prints an argument list verbatim, joined by single
    spaces, when no argument is empty or contains a space, tab, newline or
    quote character. *)
Theorem format_cmd_plain (args : list string) :
  (forall a, In a args ->
     a <> "" /\ has_char " "%char a = false /\ has_char "009"%char a = false /\
     has_char "010"%char a = false /\ has_char dquote a = false /\ has_char "'"%char a = false) ->
  _format_cmd args = String.concat " " args.
Proof.
  intros H. unfold _format_cmd. f_equal. rewrite <- map_id. apply map_ext_in.
  intros a Ha. destruct (H a Ha) as (H0 & H1 & H2 & H3 & H4 & H5). apply format_arg_plain; assumption.
Qed.

Lemma format_cmd_plain_witness :
  _format_cmd ["cdxgen"; "-t"; "java"; "-o"; "/data/x.json"] = "cdxgen -t java -o /data/x.json".
Proof.
  apply format_cmd_plain. intros a Ha. simpl in Ha.
  repeat (destruct Ha as [<-|Ha]; [repeat split; [discriminate|..]; reflexivity|]). destruct Ha.
Defined.

End EnvClaims.

Module SupervisorProofs.
Import Supervisor.

Lemma str_app_nil_r (s : string) : (s ++ "")%string = s.
Proof. induction s as [|c s IH]; simpl; [reflexivity|]. rewrite IH. reflexivity. Qed.

Lemma str_length_app (a b : string) :
  String.length (a ++ b) = String.length a + String.length b.
Proof. induction a as [|c a IH]; simpl; [reflexivity|]. rewrite IH. reflexivity. Qed.

Lemma str_assoc (a b c : string) : ((a ++ b) ++ c = a ++ (b ++ c))%string.
Proof. induction a as [|x a IH]; simpl; [reflexivity|]. rewrite IH. reflexivity. Qed.

Lemma concat_empty_cons (x : string) (xs : list string) :
  String.concat "" (x :: xs) = (x ++ String.concat "" xs)%string.
Proof. destruct xs; simpl; [rewrite str_app_nil_r|]; reflexivity. Qed.

Lemma concat_empty_app (a b : list string) :
  String.concat "" (a ++ b) = (String.concat "" a ++ String.concat "" b)%string.
Proof.
  induction a as [|x a IH]; [reflexivity|].
  rewrite <- app_comm_cons, !concat_empty_cons, IH. apply eq_sym, str_assoc.
Qed.

(** The continuation bytes a started character still needs. *)
Inductive conts : nat -> N -> N -> string -> Prop :=
  | conts_last lo hi x :
      (lo <= N_of_ascii x <= hi)%N -> conts 1 lo hi (String x "")
  | conts_more k lo hi x cs :
      (lo <= N_of_ascii x <= hi)%N -> conts (S k) 128 191 cs -> conts (S (S k)) lo hi (String x cs).

(** A well-formed character: what the decoder emits. *)
Definition wf_char (c : string) : Prop :=
  exists b cs, c = String b cs /\
    (((N_of_ascii b < 128)%N /\ cs = "") \/
     ((128 <= N_of_ascii b)%N /\
      exists k lo hi, utf8_lead (N_of_ascii b) = Some (k, lo, hi) /\ conts k lo hi cs)).

Lemma in_range_true (lo hi : N) (x : ascii) :
  (lo <= N_of_ascii x <= hi)%N -> ((lo <=? N_of_ascii x)%N && (N_of_ascii x <=? hi)%N) = true.
Proof. intros [H1 H2]. apply andb_true_intro. split; apply N.leb_le; assumption. Qed.

Lemma pend_run (cs : string) (k : nat) (lo hi : N) :
  conts k lo hi cs -> forall buf s,
  utf8_go (Some (buf, k, lo, hi)) (cs ++ s) = (buf ++ cs)%string :: utf8_go None s.
Proof.
  induction 1 as [lo hi x Hx|k lo hi x cs Hx Hc IH]; intros buf s; simpl.
  - rewrite (in_range_true _ _ _ Hx). reflexivity.
  - rewrite (in_range_true _ _ _ Hx). simpl. rewrite IH, str_assoc. reflexivity.
Qed.

Lemma wf_char_run (c s : string) :
  wf_char c -> utf8_go None (c ++ s) = c :: utf8_go None s.
Proof.
  intros (b & cs & -> & [[Hb ->]|[Hb (k & lo & hi & Hl & Hc)]]); simpl; unfold utf8_start.
  - apply N.ltb_lt in Hb. rewrite Hb. reflexivity.
  - assert (Hn : (N_of_ascii b <? 128)%N = false) by (apply N.ltb_ge; exact Hb).
    rewrite Hn, Hl. rewrite (pend_run cs k lo hi Hc). reflexivity.
Qed.

Lemma utf8_lead_pos (n : N) (k : nat) (lo hi : N) : utf8_lead n = Some (k, lo, hi) -> 1 <= k.
Proof.
  unfold utf8_lead. intros H.
  repeat match type of H with
         | context [if ?c then _ else _] => destruct c
         end; try discriminate H; injection H as <- _ _; lia.
Qed.

Definition pend_ok (p : Pending) : Prop :=
  match p with
  | None => True
  | Some (buf, k, lo, hi) => 1 <= k /\ forall cs, conts k lo hi cs -> wf_char (buf ++ cs)
  end.

Lemma start_wf (go : Pending -> list string) (c : ascii) :
  (forall p, pend_ok p -> Forall wf_char (go p)) -> Forall wf_char (utf8_start go c).
Proof.
  intros Hgo. unfold utf8_start.
  destruct (N.ltb_spec (N_of_ascii c) 128) as [Hc|Hc].
  - constructor; [|apply Hgo; exact I]. exists c, "". split; [reflexivity|]. left. split; [exact Hc|reflexivity].
  - destruct (utf8_lead (N_of_ascii c)) as [[[k lo] hi]|] eqn:Hl; apply Hgo; [|exact I].
    split; [exact (utf8_lead_pos _ _ _ _ Hl)|].
    intros cs Hcs. exists c, cs. split; [reflexivity|]. right. split; [exact Hc|].
    exists k, lo, hi. split; assumption.
Qed.

Lemma decode_wf (s : string) : forall p, pend_ok p -> Forall wf_char (utf8_go p s).
Proof.
  induction s as [|c rest IH]; intros p Hp; simpl; [constructor|].
  destruct p as [[[[buf k] lo] hi]|]; [|apply start_wf; exact IH].
  destruct Hp as [Hk Hbuf].
  destruct ((lo <=? N_of_ascii c)%N && (N_of_ascii c <=? hi)%N) eqn:Hr;
    [|apply start_wf; exact IH].
  apply andb_prop in Hr as [H1 H2]. apply N.leb_le in H1, H2.
  destruct k as [|[|k]]; [lia| |]; simpl.
  - constructor; [|apply IH; exact I]. apply Hbuf. constructor. split; assumption.
  - apply IH. split; [lia|]. intros cs Hcs. rewrite str_assoc. apply Hbuf.
    constructor; [split; assumption|exact Hcs].
Qed.

(** Decoding the characters the decoder emitted gives them back. *)
Lemma decode_concat (cs : list string) :
  Forall wf_char cs -> utf8_decode (String.concat "" cs) = cs.
Proof.
  induction 1 as [|c cs Hc Hcs IH]; [reflexivity|].
  rewrite concat_empty_cons. unfold utf8_decode in *. rewrite (wf_char_run c _ Hc), IH. reflexivity.
Qed.

Lemma stream_reader_chars (max : nat) (chunks : list string) : forall captured,
  exists l, _stream_reader max captured chunks = String.concat "" l /\
    length l <= max - captured /\ Forall wf_char l.
Proof.
  induction chunks as [|chunk rest IH]; intros captured; cbn [_stream_reader].
  - exists []. split; [reflexivity|]. split; [simpl; lia|constructor].
  - destruct (String.eqb chunk ""). { exists []. split; [reflexivity|]. split; [simpl; lia|constructor]. }
    destruct (Nat.ltb_spec captured max) as [Hlt|Hge]; [|destruct (IH captured) as [l Hl]; exists l; exact Hl].
    set (piece := firstn (max - captured) (utf8_decode chunk)).
    destruct (IH (captured + length piece)) as [l [Hl [Hlen Hwf]]].
    exists (piece ++ l). rewrite concat_empty_app, Hl. split; [reflexivity|].
    assert (Hp : length piece <= max - captured) by apply firstn_le_length.
    split; [rewrite length_app; lia|].
    apply Forall_app. split; [|exact Hwf].
    pose proof (decode_wf chunk None I) as Hd. fold (utf8_decode chunk) in Hd.
    rewrite Forall_forall in *. intros x Hx. apply Hd. subst piece.
    rewrite <- (firstn_skipn (max - captured) (utf8_decode chunk)). apply in_or_app. left. exact Hx.
Qed.

Lemma stream_reader_firstn (max : nat) (chunks : list string) : forall captured,
  Forall (fun c => c <> "") chunks ->
  _stream_reader max captured chunks
  = String.concat "" (firstn (max - captured) (flat_map utf8_decode chunks)).
Proof.
  induction chunks as [|chunk rest IH]; intros captured Hall; cbn [_stream_reader].
  - rewrite firstn_nil. reflexivity.
  - inversion Hall as [|? ? Hne Hrest]; subst.
    apply String.eqb_neq in Hne. rewrite Hne. cbn [flat_map]. rewrite firstn_app, concat_empty_app.
    destruct (Nat.ltb_spec captured max) as [Hlt|Hge].
    + rewrite IH by exact Hrest. f_equal. f_equal. f_equal. rewrite length_firstn. lia.
    + rewrite IH by exact Hrest. replace (max - captured) with 0 by lia. reflexivity.
Qed.

End SupervisorProofs.

Module SupervisorExtra.
Import Supervisor SupervisorProofs.

(** X4: a command that exits within the timeout yields its own exit status
    and, for each pipe, the first [max_capture_chars] characters of its
    output decoded read by read (bytes that are not UTF-8, or a character
    split across two reads, are dropped); the supervisor awaits both
    readers after the exit. *)
Theorem run_command_completed (timeout_sec max_capture_chars t : nat) (p : Proc) :
  p_runtime_ms p = Some t -> t <= timeout_sec * 1000 ->
  Forall (fun c => c <> "") (p_stdout p) -> Forall (fun c => c <> "") (p_stderr p) ->
  run_command_logged timeout_sec max_capture_chars (Spawned p)
  = (mkCmdResult (p_returncode p)
       (String.concat "" (firstn max_capture_chars (flat_map utf8_decode (p_stdout p))))
       (String.concat "" (firstn max_capture_chars (flat_map utf8_decode (p_stderr p)))) t,
     [EvSpawn; EvStartReader Stdout; EvStartReader Stderr; EvExited;
      EvAwaitReader Stdout; EvAwaitReader Stderr]).
Proof.
  intros Ht Hle Ho He. unfold run_command_logged. rewrite Ht.
  apply Nat.leb_le in Hle. rewrite Hle.
  rewrite !stream_reader_firstn by assumption. rewrite !Nat.sub_0_r. reflexivity.
Qed.

(** The witness: the two bytes of "é" (0xC3 0xA9) arrive in two reads. *)
Lemma run_command_completed_witness :
  run_command_logged 5 4
    (Spawned (mkProc (Some 1200) 3
       [String "a" (String (ascii_of_nat 195) ""); String (ascii_of_nat 169) "bcde"] ["e"]))
  = (mkCmdResult 3 "abcd" "e" 1200,
     [EvSpawn; EvStartReader Stdout; EvStartReader Stderr; EvExited;
      EvAwaitReader Stdout; EvAwaitReader Stderr]).
Proof.
  apply (run_command_completed 5 4 1200 (mkProc (Some 1200) 3
           [String "a" (String (ascii_of_nat 195) ""); String (ascii_of_nat 169) "bcde"] ["e"]));
    simpl; [reflexivity|lia|repeat constructor; discriminate..].
Defined.

(** X5: whatever bytes the child writes, and wherever the end of the
    stream falls, the text [_stream_reader] returns has at most
    [max_capture_chars] characters. *)
Theorem stream_reader_capture_bound (max_capture_chars : nat) (chunks : list string) :
  py_len (_stream_reader max_capture_chars 0 chunks) <= max_capture_chars.
Proof.
  destruct (stream_reader_chars max_capture_chars chunks 0) as [l [Hl [Hlen Hwf]]].
  unfold py_len. rewrite Hl, decode_concat by exact Hwf. lia.
Qed.

End SupervisorExtra.

Module ExtractExtra.
Import Extract ExtractProofs.

Lemma zip_loop_ok (ms : Z) (d : path) : forall is acc,
  zip_loop ms d acc is = ExtractOk <->
  (is = [] \/ (acc + fold_right Z.add 0 (map (fun i => Z.of_N (zi_file_size i)) is) <= ms)%Z) /\
  Forall (fun i => member_escapes d (zi_filename i) = false) is.
Proof.
  induction is as [|i is IH]; intros acc; simpl.
  - split; [intros _; split; [left; reflexivity|constructor]|reflexivity].
  - rewrite Forall_cons_iff. pose proof (zip_sizes_nonneg is) as Hnn.
    destruct (acc + Z.of_N (zi_file_size i) >? ms)%Z eqn:Hs; zcases.
    + split; [discriminate|]. intros [[H|H] _]; [discriminate|lia].
    + unfold member_escapes, suspicious_abs.
      destruct (starts_with_sep (zi_filename i) || has_char ":"%char (zi_filename i)); simpl.
      * split; [discriminate|]. intros [_ [H _]]. discriminate.
      * destruct (_is_within_directory d (path_join d (zi_filename i))); simpl.
        -- rewrite IH. split.
           ++ intros [[->|H1] H2]; (split; [right|split; [reflexivity|exact H2]]); simpl in *; lia.
           ++ intros [[H1|H1] [_ H2]]; [discriminate|]. split; [right; lia|exact H2].
        -- split; [discriminate|]. intros [_ [H _]]. discriminate.
Qed.

Lemma tar_loop_ok (ms : Z) (d : path) : forall mem acc,
  tar_loop ms d acc mem = ExtractOk <->
  (mem = [] \/ (acc + fold_right Z.add 0 (map (fun m => Z.max 0 (ti_size m)) mem) <= ms)%Z) /\
  Forall (fun m => tar_link m = false /\ member_escapes d (ti_name m) = false) mem.
Proof.
  induction mem as [|m mem IH]; intros acc; simpl.
  - split; [intros _; split; [left; reflexivity|constructor]|reflexivity].
  - rewrite Forall_cons_iff. pose proof (tar_sizes_nonneg mem) as Hnn.
    unfold member_escapes, suspicious_abs, tar_link.
    destruct (starts_with_sep (ti_name m) || has_char ":"%char (ti_name m)); simpl.
    + split; [discriminate|]. intros [_ [[_ H] _]]. discriminate.
    + destruct (issym m || islnk m); simpl.
      * split; [discriminate|]. intros [_ [[H _] _]]. discriminate.
      * destruct (acc + Z.max 0 (ti_size m) >? ms)%Z eqn:Hs; zcases.
        -- split; [discriminate|]. intros [[H|H] _]; [discriminate|lia].
        -- destruct (_is_within_directory d (path_join d (ti_name m))); simpl.
           ++ rewrite IH. split.
              ** intros [[->|H1] H2]; (split; [right|split; [split; reflexivity|exact H2]]); simpl in *; lia.
              ** intros [[H1|H1] [_ H2]]; [discriminate|]. split; [right; lia|exact H2].
           ++ split; [discriminate|]. intros [_ [[_ H] _]]. discriminate.
Qed.

Lemma forall_in_map {A} (f : A -> string) (P : string -> Prop) (l : list A) :
  Forall (fun x => P (f x)) l <-> (forall n, In n (map f l) -> P n).
Proof.
  rewrite Forall_forall. split.
  - intros H n Hn. apply in_map_iff in Hn as [x [<- Hx]]. apply H, Hx.
  - intros H x Hx. apply H, in_map, Hx.
Qed.

Lemma map_nil_iff {A B} (f : A -> B) (l : list A) : map f l = [] <-> l = [].
Proof. destruct l; simpl; split; congruence. Qed.

Lemma safe_checks_ok_iff (max_files max_size : Z) (d : path) (a : ArchiveFile) :
  match a with
  | TarArchive ms => _safe_extract_tar max_files max_size d ms
  | ZipArchive is => _safe_extract_zip max_files max_size d is
  | OtherFile => ExtractFail ErrUnsupported
  end = ExtractOk <->
  a <> OtherFile /\
  (Z.of_nat (length (member_names a)) <= max_files)%Z /\
  (member_names a = [] \/ (total_declared_size a <= max_size)%Z) /\
  tar_has_link a = false /\
  (forall n, In n (member_names a) -> member_escapes d n = false).
Proof.
  destruct a as [mem|is|]; simpl.
  - unfold _safe_extract_tar. rewrite length_map, map_nil_iff.
    destruct (Z.of_nat (length mem) >? max_files)%Z eqn:Hc; zcases.
    + simpl. split; [discriminate|]. intros [_ [H _]]. lia.
    + assert (Hl : existsb tar_link mem = false <-> Forall (fun m => tar_link m = false) mem).
      { rewrite <- not_true_iff_false, existsb_exists, Forall_forall. split.
        - intros H x Hx. apply not_true_is_false. intros Ht. apply H. exists x. split; assumption.
        - intros H [x [Hx Ht]]. rewrite (H x Hx) in Ht. discriminate. }
      rewrite Hl, <- (forall_in_map ti_name (fun n => member_escapes d n = false)).
      pose proof (tar_loop_ok max_size d mem 0) as Hok. simpl in Hok.
      destruct (tar_loop max_size d 0 mem) eqn:Et; simpl.
      * destruct (proj1 Hok eq_refl) as [H1 H2]. split; [intros _|reflexivity].
        split; [discriminate|]. split; [exact Hc|]. split; [exact H1|].
        rewrite !Forall_forall in *. split; intros x Hx; apply (H2 x Hx).
      * split; [discriminate|]. intros [_ [_ [H1 [H2 H3]]]].
        enough (ExtractFail e = ExtractOk) by discriminate. apply Hok. split; [exact H1|].
        rewrite Forall_forall in *. intros x Hx. split; [apply H2|apply H3]; exact Hx.
  - unfold _safe_extract_zip. rewrite length_map, map_nil_iff.
    destruct (Z.of_nat (length is) >? max_files)%Z eqn:Hc; zcases.
    + simpl. split; [discriminate|]. intros [_ [H _]]. lia.
    + rewrite <- (forall_in_map zi_filename (fun n => member_escapes d n = false)).
      pose proof (zip_loop_ok max_size d is 0) as Hok. simpl in Hok.
      destruct (zip_loop max_size d 0 is) eqn:Et; simpl.
      * destruct (proj1 Hok eq_refl) as [H1 H2]. split; [intros _|reflexivity].
        split; [discriminate|]. repeat split; assumption.
      * split; [discriminate|]. intros [_ [_ [H1 [_ H3]]]].
        enough (ExtractFail e = ExtractOk) by discriminate. apply Hok. split; assumption.
  - split; [discriminate|]. intros [H _]. contradiction.
Qed.

Lemma norm_aux_plain (z : path) : Forall (fun c => c <> "..") z ->
  forall st, norm_aux st z = rev st ++ z.
Proof.
  induction 1 as [|c z Hc Hz IH]; intros st; simpl; [rewrite app_nil_r; reflexivity|].
  apply String.eqb_neq in Hc. rewrite Hc, IH. simpl. rewrite <- app_assoc. reflexivity.
Qed.

Lemma norm_aux_app_plain (z : path) : Forall (fun c => c <> "..") z ->
  forall l st, norm_aux st (l ++ z) = norm_aux st l ++ z.
Proof.
  intros Hz l. induction l as [|c l IH]; intros st; simpl; [apply norm_aux_plain, Hz|].
  destruct (String.eqb c ".."); apply IH.
Qed.

Lemma zip_arcname_plain (n : string) :
  Forall (fun c => keep_component c = true /\ c <> "..") (zip_arcname n).
Proof.
  unfold zip_arcname. apply Forall_forall. intros c Hc. apply filter_In in Hc as [_ Hc].
  apply andb_prop in Hc as [Hc H3]. unfold keep_component. split; [exact Hc|].
  apply negb_true_iff, String.eqb_neq in H3. exact H3.
Qed.

Lemma resolve_app_plain (d z : path) :
  Forall (fun c => keep_component c = true /\ c <> "..") z -> resolve (d ++ z) = resolve d ++ z.
Proof.
  intros Hz. unfold resolve. rewrite filter_app.
  assert (Hf : filter keep_component z = z).
  { induction Hz as [|c z [Hk _] _ IH]; simpl; [reflexivity|]. rewrite Hk, IH. reflexivity. }
  rewrite Hf. apply norm_aux_app_plain.
  eapply Forall_impl; [|exact Hz]. intros c [_ H]. exact H.
Qed.

Lemma is_prefix_self_app (a b : path) : is_prefix a (a ++ b) = true.
Proof. induction a as [|x a IH]; simpl; [reflexivity|]. rewrite String.eqb_refl, IH. reflexivity. Qed.

Lemma in_firstn_in {A} (k : nat) (l : list A) (x : A) : In x (firstn k l) -> In x l.
Proof. intros H. rewrite <- (firstn_skipn k l). apply in_or_app. left. exact H. Qed.

Lemma extractall_paths_inside (max_files max_size : Z) (d : path) (a : ArchiveFile) :
  match a with
  | TarArchive ms => _safe_extract_tar max_files max_size d ms
  | ZipArchive is => _safe_extract_zip max_files max_size d is
  | OtherFile => ExtractFail ErrUnsupported
  end = ExtractOk ->
  forall p, In p (extractall_paths d a) -> is_prefix (resolve d) p = true.
Proof.
  intros Hok. apply safe_checks_ok_iff in Hok as (_ & _ & _ & _ & Hin).
  destruct a as [mem|is|]; simpl in *; intros p Hp.
  - apply in_map_iff in Hp as [m [<- Hm]].
    specialize (Hin (ti_name m) (in_map _ _ _ Hm)). unfold member_escapes in Hin.
    apply orb_false_iff in Hin as [_ Hw]. apply negb_false_iff in Hw. exact Hw.
  - apply in_map_iff in Hp as [m [<- Hm]].
    rewrite resolve_app_plain by apply zip_arcname_plain. apply is_prefix_self_app.
  - contradiction.
Qed.

(** X6: extraction succeeds exactly when the archive is a tar or zip file,
    has at most [max_files] members, its total declared size is within
    [max_size] (or it has no member), no tar member is a link and no member
    name is absolute, contains ":" or resolves outside the destination,
    and [extractall] then completes without raising; the order of the
    checks does not matter. *)
Theorem do_extract_ok_iff (max_files max_size : Z) (d : path) (a : ArchiveFile) (run : ExtractallRun) :
  fst (_do_extract max_files max_size d a run) = ExtractOk <->
  (a <> OtherFile /\
   (Z.of_nat (length (member_names a)) <= max_files)%Z /\
   (member_names a = [] \/ (total_declared_size a <= max_size)%Z) /\
   tar_has_link a = false /\
   (forall n, In n (member_names a) -> member_escapes d n = false)) /\
  run = ExtractallDone.
Proof.
  pose proof (safe_checks_ok_iff max_files max_size d a) as Hc.
  unfold _do_extract. cbv zeta.
  destruct (match a with TarArchive ms => _ | ZipArchive is => _ | OtherFile => _ end) as [|e];
    [destruct run|]; simpl; split.
  - intros _. split; [apply Hc; reflexivity|reflexivity].
  - intros _. reflexivity.
  - discriminate.
  - intros [_ H]. discriminate.
  - discriminate.
  - intros [H _]. apply Hc in H. discriminate.
Qed.

(** X7: every file [_do_extract] writes, whether [extractall] completes
    or raises part way, lies at a resolved location that has the resolved
    destination as a component prefix; on success it wrote one file per
    member; when a check fails (any error but an exception of
    [extractall]) it wrote nothing. *)
Theorem do_extract_writes_inside (max_files max_size : Z) (d : path) (a : ArchiveFile) (run : ExtractallRun) :
  (forall p, In p (snd (_do_extract max_files max_size d a run)) -> is_prefix (resolve d) p = true) /\
  (fst (_do_extract max_files max_size d a run) = ExtractOk ->
   length (snd (_do_extract max_files max_size d a run)) = length (member_names a)) /\
  (forall e, fst (_do_extract max_files max_size d a run) = ExtractFail e ->
   (forall exc, e <> ErrException exc) -> snd (_do_extract max_files max_size d a run) = []).
Proof.
  pose proof (extractall_paths_inside max_files max_size d a) as Hin.
  unfold _do_extract. cbv zeta.
  destruct (match a with TarArchive ms => _ | ZipArchive is => _ | OtherFile => _ end) as [|e];
    [specialize (Hin eq_refl); destruct run as [|k exc]|]; simpl.
  - split; [exact Hin|]. split; [|intros e' H; discriminate H].
    intros _. destruct a; simpl; rewrite ?length_map; reflexivity.
  - split; [intros p Hp; apply Hin, (in_firstn_in k), Hp|]. split; [discriminate|].
    intros e' H Hne. injection H as <-. exfalso. exact (Hne exc eq_refl).
  - split; [intros p []|]. split; [discriminate|]. intros; reflexivity.
Qed.

End ExtractExtra.

Module RootLocatorExtra.
Import RootLocator RootLocatorProofs RootLocatorClaims.

Lemma reach_shape (fs : FS) (M : Z) (d p : path) (k : nat) :
  reach fs M d p k ->
  exists cs, p = d ++ cs /\ length cs = k /\
    (forall c, In c cs -> ~ In c SKIPPED_DIRS) /\ (cs <> [] -> fs_is_dir fs p = true).
Proof.
  induction 1 as [|p k c Hr IH Hk Hc].
  - exists []. rewrite app_nil_r. repeat split; [intros c []|intros H; contradiction].
  - destruct IH as [cs [-> [Hl [Hs _]]]]. unfold children in Hc.
    destruct (fs_list_dir fs (d ++ cs)) as [names|]; [|destruct Hc].
    apply in_map_iff in Hc as [n [<- Hn]]. apply filter_In in Hn as [_ Hkept].
    unfold child_kept in Hkept. apply andb_true_iff in Hkept as [Hdir Hskip].
    exists (cs ++ [n]). rewrite app_assoc. split; [reflexivity|].
    split; [rewrite length_app, Hl; simpl; lia|]. split; [|intros _; exact Hdir].
    intros c Hin. apply in_app_or in Hin as [Hin|[<-|[]]]; [apply Hs, Hin|].
    intros Hn. apply negb_true_iff in Hskip. rewrite <- not_true_iff_false in Hskip.
    apply Hskip, existsb_exists. exists n. split; [exact Hn|apply String.eqb_refl].
Qed.

(** X8: when the hint does not name an existing directory, the project
    root the locator returns is the resolved extraction directory extended
    by at most [MAX_ROOT_DETECT_DEPTH] components, none of which is one of
    the skipped names (.git, node_modules, venv, build, ...); when it is
    strictly below the extraction directory it is a directory. *)
Theorem detect_scan_inside (fs : FS) (M : Z) (dest : path) (hint : option string) :
  hint_hit fs (fs_resolve fs dest) hint = false ->
  exists r cs, _detect_project_root fs M dest hint = Some r /\
    r = fs_resolve fs dest ++ cs /\ (length cs <= Z.to_nat M)%nat /\
    (forall c, In c cs -> ~ In c SKIPPED_DIRS) /\ (cs <> [] -> fs_is_dir fs r = true).
Proof.
  intros Hh. set (d := fs_resolve fs dest) in *.
  destruct (scan_from_root fs M d) as [r [Hbfs [[Hb|[[k [Hr Hk]] _]] _]]].
  - exists r, []. split.
    + unfold _detect_project_root. fold d. destruct hint; [rewrite Hh|]; exact Hbfs.
    + rewrite app_nil_r. repeat split; [exact Hb|simpl; lia|intros c []|intros H; contradiction].
  - destruct (reach_shape fs M d r k Hr) as [cs [Hcs [Hl [Hs Hd]]]].
    exists r, cs. split.
    + unfold _detect_project_root. fold d. destruct hint; [rewrite Hh|]; exact Hbfs.
    + repeat split; [exact Hcs|lia|exact Hs|exact Hd].
Qed.

Lemma detect_scan_inside_witness :
  exists r cs, _detect_project_root job_fs 3 job_dir None = Some r /\
    r = fs_resolve job_fs job_dir ++ cs /\ (length cs <= Z.to_nat 3)%nat /\
    (forall c, In c cs -> ~ In c SKIPPED_DIRS) /\ (cs <> [] -> fs_is_dir job_fs r = true).
Proof. apply (detect_scan_inside job_fs 3 job_dir None). reflexivity. Defined.

End RootLocatorExtra.

Module RegistryExtra.
Import Registry.

Lemma bom_command_fields (h : Host) (lang uuid root : string) (c : BomCommand) :
  fst (build_bom_command h lang uuid root) = Some c ->
  output c = slash root (uuid ++ ".json") /\ cwd c = root /\
  (pre_args c <> None -> strip (lower lang) = "php").
Proof.
  unfold build_bom_command. cbv zeta. simpl fst.
  destruct (String.eqb_spec (strip (lower lang)) "python") as [Hl|_].
  { unfold _build_python_bom. destruct (_pick_first_existing h PYTHON_REQUIREMENT_CANDIDATES);
      [destruct (negb _)|destruct (exists_in_root h _)]; intros H; try discriminate;
      injection H as <-; repeat split; simpl; congruence. }
  destruct (String.eqb (strip (lower lang)) "golang" || String.eqb (strip (lower lang)) "go").
  { unfold _build_golang_bom. destruct (negb _ || negb _); intros H; [discriminate|].
    injection H as <-; repeat split; simpl; congruence. }
  destruct (String.eqb_spec (strip (lower lang)) "php") as [Hl|_].
  { unfold _build_php_bom. destruct (negb _ || negb _); intros H; [discriminate|].
    injection H as <-; repeat split; intros; exact Hl. }
  destruct (String.eqb (strip (lower lang)) "javascript" || _ || _).
  { unfold _build_javascript_bom. destruct (negb _ || negb _); intros H; [discriminate|].
    injection H as <-; repeat split; simpl; congruence. }
  destruct (String.eqb (strip (lower lang)) "rust").
  { unfold _build_rust_bom. destruct (negb _ || negb _ || negb _); intros H; [discriminate|].
    injection H as <-; repeat split; simpl; congruence. }
  destruct (String.eqb (strip (lower lang)) "java").
  { unfold _build_java_bom. destruct (negb _); intros H; [discriminate|].
    injection H as <-; repeat split; simpl; congruence. }
  destruct (String.eqb (strip (lower lang)) "c/c++" || _ || _).
  { unfold _build_c_cpp_bom. destruct (negb _); intros H; [discriminate|].
    injection H as <-; repeat split; simpl; congruence. }
  discriminate.
Qed.

(** X9: every command the registry builds runs in the project root and
    names [<project_root>/<dx_uuid>.json] as its output file, and only the
    PHP strategy carries a pre-command. *)
Theorem bom_command_output (h : Host) (lang uuid root : string) (c : BomCommand) :
  fst (build_bom_command h lang uuid root) = Some c ->
  output c = slash root (uuid ++ ".json") /\ cwd c = root /\
  (pre_args c <> None -> strip (lower lang) = "php").
Proof. apply bom_command_fields. Qed.

Definition php_host : Host :=
  mkHost (fun t => if String.eqb t "composer" then Some "/usr/bin/composer" else None)
    "/usr/bin/python3" (fun n => String.eqb n "composer.json").

Lemma bom_command_output_witness :
  exists c, fst (build_bom_command php_host " PHP" "u1" "/srv/job") = Some c /\
    output c = slash "/srv/job" ("u1" ++ ".json") /\ cwd c = "/srv/job" /\
    (pre_args c <> None -> strip (lower " PHP") = "php").
Proof.
  eexists. split; [vm_compute; reflexivity|].
  apply (bom_command_output php_host " PHP" "u1" "/srv/job"). vm_compute. reflexivity.
Defined.

End RegistryExtra.

Module PipelineExtra.
Import DxCtl Pipeline PipelineProofs.

Lemma split_slash_on (s : string) : split_slash s = Env.split_on "/"%char s.
Proof. induction s as [|c s IH]; simpl; [reflexivity|]. unfold char_eqb. rewrite IH. reflexivity. Qed.

Lemma split_on_app_tail (sep : ascii) (x t : string) :
  has_char sep t = false ->
  exists L y, Env.split_on sep (x ++ t) = L ++ [(y ++ t)%string].
Proof.
  intros Ht. induction x as [|c x IH]; simpl.
  - exists [], "". rewrite (EnvProofs.split_on_nosep _ _ Ht). reflexivity.
  - destruct IH as [L [y E]]. rewrite E. destruct (Ascii.eqb c sep).
    + exists ("" :: L), y. reflexivity.
    + destruct L as [|l0 L].
      * exists [], (String c y). reflexivity.
      * exists (String c l0 :: L), y. reflexivity.
Qed.

Lemma json_name_kept (y : string) : keep_component (y ++ ".json") = true.
Proof.
  unfold keep_component.
  assert (Hl : String.length (y ++ ".json") = String.length y + 5)
    by (rewrite SupervisorProofs.str_length_app; reflexivity).
  destruct (String.eqb_spec (y ++ ".json") "") as [E|_]; [rewrite E in Hl; simpl in Hl; lia|].
  destruct (String.eqb_spec (y ++ ".json") ".") as [E|_]; [rewrite E in Hl; simpl in Hl; lia|].
  reflexivity.
Qed.

(** [Path(output).name] of a registry output path is never empty. *)
Lemma output_name_nonempty (root uuid : string) :
  path_name (Registry.slash root (uuid ++ ".json")) <> "".
Proof.
  unfold path_name, components, Registry.slash. rewrite split_slash_on.
  cbn [append]. rewrite EnvProofs.split_on_app_sep.
  destruct (split_on_app_tail "/"%char uuid ".json" eq_refl) as [L [y E]].
  rewrite E, app_assoc, filter_app. cbn [filter]. rewrite json_name_kept, last_last.
  intros H. pose proof (json_name_kept y) as K. rewrite H in K. discriminate.
Qed.


Lemma registry_name_nonempty (h : Registry.Host) (lang uuid root : string) (c : Registry.BomCommand) :
  fst (Registry.build_bom_command h lang uuid root) = Some c ->
  String.eqb (path_name (Registry.output c)) "" = false.
Proof.
  intros H. destruct (RegistryExtra.bom_command_fields h lang uuid root c H) as [-> _].
  apply String.eqb_neq, output_name_nonempty.
Qed.

Ltac name_branch :=
  exfalso;
  match goal with
  | Hb : Registry.build_bom_command _ _ _ _ = (Some _, _),
    He : String.eqb (path_name (Registry.output _)) "" = true |- _ =>
      rewrite (registry_name_nonempty _ _ _ _ _ (f_equal fst Hb)) in He; discriminate
  end.

(** X10: a run of [main] that returns [True] persists exactly the statuses
    1, 2 and 3, in that order, and calls the BOM upload exactly once. *)
Theorem main_success_trace (T C : nat) (w : World) (lang uuid : string) :
  match main T C w lang uuid [] with
  | (Ret true, tr) => statuses tr = [1; 2; 3]%Z /\ length (filter is_upload tr) = 1%nat
  | _ => True
  end.
Proof. unfold_pipeline. pipe_case; first [exact I | split; reflexivity | name_branch]. Qed.

(** X11: a run of [main] that returns [False] always ends with the Failed
    status -1 as its last persisted status (the branch that would return
    [False] for an empty BOM file name is unreachable, since the registry
    always names [<root>/<uuid>.json]). *)
Theorem main_false_marks_failed (T C : nat) (w : World) (lang uuid : string) :
  match main T C w lang uuid [] with
  | (Ret false, tr) => last (statuses tr) 0%Z = (-1)%Z
  | _ => True
  end.
Proof. unfold_pipeline. pipe_case; first [exact I | reflexivity | name_branch]. Qed.

End PipelineExtra.

Module DbExtra.
Import DxCtl Db.

Lemma find_app_skip {A} (p : A -> bool) (l l' : list A) :
  (forall x, In x l -> p x = false) -> find p (l ++ l') = find p l'.
Proof.
  induction l as [|x l IH]; intros H; simpl; [reflexivity|].
  rewrite (H x (or_introl eq_refl)). apply IH. intros y Hy. apply H. right. exact Hy.
Qed.

Lemma find_map_id (f : Row -> Row) (id : nat) (l : list Row) :
  (forall r, r_id (f r) = r_id r) ->
  find (fun r => Nat.eqb (r_id r) id) (map f l) = option_map f (find (fun r => Nat.eqb (r_id r) id) l).
Proof.
  intros Hf. induction l as [|x l IH]; simpl; [reflexivity|].
  rewrite Hf. destruct (Nat.eqb (r_id x) id); [reflexivity|exact IH].
Qed.

Lemma find_none_all {A} (p : A -> bool) (l : list A) :
  find p l = None -> forall x, In x l -> p x = false.
Proof.
  induction l as [|y l IH]; simpl; intros H x Hx; [destruct Hx|].
  destruct (p y) eqn:Ey; [discriminate|]. destruct Hx as [<-|Hx]; [exact Ey|apply IH; assumption].
Qed.

Lemma find_filter_other (id id' : nat) (l : list Row) :
  id' <> id ->
  find (fun r => Nat.eqb (r_id r) id') (filter (fun r => negb (Nat.eqb (r_id r) id)) l)
  = find (fun r => Nat.eqb (r_id r) id') l.
Proof.
  intros Hne. induction l as [|x l IH]; simpl; [reflexivity|].
  destruct (Nat.eqb_spec (r_id x) id) as [E|E]; simpl; rewrite IH; [|reflexivity].
  destruct (Nat.eqb_spec (r_id x) id'); [congruence|reflexivity].
Qed.

Lemma find_filter_self (id : nat) (l : list Row) :
  find (fun r => Nat.eqb (r_id r) id) (filter (fun r => negb (Nat.eqb (r_id r) id)) l) = None.
Proof.
  induction l as [|x l IH]; simpl; [reflexivity|].
  destruct (Nat.eqb (r_id x) id) eqn:E; simpl; [exact IH|]. rewrite E. exact IH.
Qed.

(** The autoincrement invariant: ids are distinct and below the counter. *)
Definition wf (db : Db) : Prop :=
  NoDup (map r_id (rows db)) /\ forall r, In r (rows db) -> r_id r < next_id db.

Lemma varchar_fits (strict_mode : bool) (w : nat) (s : string) :
  py_len s <= w -> varchar strict_mode w s = Some s.
Proof. intros H. unfold varchar. apply Nat.leb_le in H. rewrite H. reflexivity. Qed.

Lemma text_col_fits (strict_mode : bool) (s : string) :
  String.length s <= TEXT_BYTES -> text_col strict_mode s = Some s.
Proof. intros H. unfold text_col. apply Nat.leb_le in H. rewrite H. reflexivity. Qed.

Lemma existsb_find_some {A} (p : A -> bool) (l : list A) (x : A) :
  find p l = Some x -> existsb p l = true.
Proof.
  intros H. apply find_some in H as [Hin Hp]. apply existsb_exists. exists x. split; assumption.
Qed.

Lemma existsb_find_none {A} (p : A -> bool) (l : list A) :
  find p l = None -> existsb p l = false.
Proof.
  intros H. apply not_true_is_false. intros E. apply existsb_exists in E as [x [Hin Hp]].
  rewrite (find_none_all p l H x Hin) in Hp. discriminate.
Qed.

(** X12: on a table whose ids are below the autoincrement counter, creating
    a project with a fresh name, a DX uuid no stored uuid matches, and
    values that fit their columns (name, language and uuid at most 64
    characters, code path at most 255, description at most 65535 bytes)
    returns the counter as the new id; looking the uuid up then yields the
    given name, language and description with status 0 (not started), and
    the creating user passes the ownership check for the new id. *)
Theorem create_then_get (coll_eq : string -> string -> bool) (strict_mode : bool) (db : Db)
    (name desc lang : string) (user : nat) (file_path u : string) (create_now update_now : nat) :
  (forall r, In r (rows db) -> r_id r < next_id db) ->
  existsb (fun r => coll_eq (r_project_name r) name) (rows db) = false ->
  py_len name <= 64 -> String.length desc <= TEXT_BYTES -> py_len lang <= 64 ->
  py_len file_path <= 255 -> py_len u <= 64 ->
  coll_eq u u = true ->
  (forall r v, In r (rows db) -> r_dx_uuid r = Some v -> coll_eq v u = false) ->
  exists db', create_sbom_project coll_eq strict_mode db name desc lang user file_path u
                create_now update_now = (Ret (next_id db), db') /\
    get_project_base_info coll_eq db' u = Ret (mkProjectInfo name lang desc 0) /\
    project_authentication db' (next_id db) user = Ret true.
Proof.
  intros Hlt Hname H1 H2 H3 H4 H5 Hu Hother. unfold create_sbom_project. rewrite Hname.
  rewrite !varchar_fits, text_col_fits by assumption. rewrite Hname.
  eexists. split; [reflexivity|]. split.
  - unfold get_project_base_info. simpl. rewrite find_app_skip.
    + simpl. rewrite Hu. reflexivity.
    + intros r Hr. destruct (r_dx_uuid r) as [v|] eqn:E; [|reflexivity]. exact (Hother r v Hr E).
  - unfold project_authentication, find_id. simpl. rewrite find_app_skip.
    + simpl. rewrite Nat.eqb_refl, Nat.eqb_refl. reflexivity.
    + intros r Hr. apply Nat.eqb_neq. specialize (Hlt r Hr). lia.
Qed.

Definition row1 : Row := mkRow 1 "shop" "" "java" "/data/sbom/a" 100 100 7 3 (Some "u-1") None.

Lemma create_then_get_witness :
  exists db', create_sbom_project String.eqb true (mkDb [row1] 2) "blog" "d" "python" 7
                "/data/sbom/b" "u-2" 200 200 = (Ret 2, db') /\
    get_project_base_info String.eqb db' "u-2" = Ret (mkProjectInfo "blog" "python" "d" 0) /\
    project_authentication db' 2 7 = Ret true.
Proof.
  apply (create_then_get String.eqb true (mkDb [row1] 2) "blog" "d" "python" 7 "/data/sbom/b" "u-2"
           200 200).
  - intros r [<-|[]]. simpl. lia.
  - reflexivity.
  - apply Nat.leb_le. vm_compute. reflexivity.
  - apply Nat.leb_le. vm_compute. reflexivity.
  - apply Nat.leb_le. vm_compute. reflexivity.
  - apply Nat.leb_le. vm_compute. reflexivity.
  - apply Nat.leb_le. vm_compute. reflexivity.
  - reflexivity.
  - intros r v [<-|[]] E. simpl in E. injection E as <-. reflexivity.
Defined.

(** X13: when no row has the given id, [update_project_status] returns
    [True] and changes nothing. When one has, and the error message fits
    its [TEXT] column (or the server cuts it there), it returns [True]:
    that row gets the new status, the (fitted) error message and
    [update_time = now] and keeps its other columns, every other row and
    the counter are unchanged; a message too long in strict mode fails the
    statement and changes nothing. *)
Theorem update_status_effect (strict_mode : bool) (db : Db) (id : nat) (s : Z)
    (msg : option string) (now : nat) :
  let '(ok, db') := update_project_status strict_mode db id s msg now in
  (find_id db id = None -> ok = Ret true /\ db' = db) /\
  (forall r, find_id db id = Some r ->
     match opt_text strict_mode msg with
     | None => ok = Raise "DataError" /\ db' = db
     | Some m =>
         ok = Ret true /\ next_id db' = next_id db /\
         find_id db' id = Some (mkRow (r_id r) (r_project_name r) (r_project_desc r)
                                 (r_code_language r) (r_code_path r) (r_create_time r) now
                                 (r_create_user_id r) s (r_dx_uuid r) m) /\
         (forall id', id' <> id -> find_id db' id' = find_id db id')
     end).
Proof.
  unfold update_project_status.
  destruct (find_id db id) as [r0|] eqn:Hf0.
  - unfold find_id in Hf0. rewrite (existsb_find_some _ _ _ Hf0).
    destruct (opt_text strict_mode msg) as [m|]; cbv beta iota;
      (split; [intros H; discriminate H|]); intros r Hr; injection Hr as <-;
      [|split; reflexivity].
    assert (Hf : forall r, r_id (set_status id s m now r) = r_id r).
    { intros r. unfold set_status. destruct (Nat.eqb (r_id r) id); reflexivity. }
    split; [reflexivity|]. split; [reflexivity|]. split.
    + unfold find_id. simpl. rewrite find_map_id by exact Hf. rewrite Hf0. simpl.
      unfold set_status. apply find_some in Hf0 as [_ Hr]. rewrite Hr. reflexivity.
    + intros id' Hne. unfold find_id. simpl. rewrite find_map_id by exact Hf.
      destruct (find (fun r => Nat.eqb (r_id r) id') (rows db)) as [r|] eqn:E; [|reflexivity].
      simpl. f_equal.
      apply find_some in E as [_ E]. apply Nat.eqb_eq in E. unfold set_status.
      destruct (Nat.eqb_spec (r_id r) id); [congruence|reflexivity].
  - unfold find_id in Hf0. rewrite (existsb_find_none _ _ Hf0). cbv beta iota.
    split; [intros _; split; reflexivity|]. intros r Hr. discriminate Hr.
Qed.

(** X14: [delete_project] changes nothing and removes no directory when
    the project is unknown, belongs to another user, or its DX deletion
    fails: in the first two cases it raises before any request, in the last
    it raises the DX error after the DX requests. *)
Theorem delete_refused (db : Db) (srv : Server) (path_exists : string -> bool) (id user : nat) :
  (find_id db id = None ->
     delete_project db srv path_exists id user = (Raise "未知项目", db, [])) /\
  (forall r, find_id db id = Some r -> r_create_user_id r <> user ->
     delete_project db srv path_exists id user = (Raise "暂无修改权限", db, [])) /\
  (forall r e evs, find_id db id = Some r -> r_create_user_id r = user -> truthy (r_dx_uuid r) = true ->
     DxCtl.delete_project srv = (Raise e, evs) ->
     delete_project db srv path_exists id user = (Raise e, db, map DxRequest evs)).
Proof.
  unfold delete_project, project_authentication. split; [|split].
  - intros H. rewrite H. reflexivity.
  - intros r H Hu. rewrite H. apply Nat.eqb_neq in Hu. rewrite Hu. reflexivity.
  - intros r e evs H Hu Ht Hd. rewrite H, Hu, Nat.eqb_refl, Ht, Hd. reflexivity.
Qed.

Lemma delete_refused_witness :
  delete_project (mkDb [row1] 2) (fun _ => mkResponse 500 "" None) (fun _ => true) 1 7
  = (Raise "DX_DELETE_PROJECT_FAILED: 500: ", mkDb [row1] 2,
     map DxRequest [HttpDelete; Sleep1s; HttpDelete; Sleep1s; HttpDelete; Sleep1s]).
Proof.
  refine (proj2 (proj2 (delete_refused (mkDb [row1] 2) (fun _ => mkResponse 500 "" None)
            (fun _ => true) 1 7)) row1 _ _ eq_refl eq_refl eq_refl _); vm_compute; reflexivity.
Defined.

(** X15: when the owner deletes a project whose DX deletion succeeds (or
    that has no DX uuid), [delete_project] returns [True], removes that
    project's row and no other, leaves the counter alone, and removes the
    code directory exactly when its path is non-empty and exists. *)
Theorem delete_success (db : Db) (srv : Server) (path_exists : string -> bool) (id user : nat)
    (r : Row) :
  find_id db id = Some r -> r_create_user_id r = user ->
  (truthy (r_dx_uuid r) = false \/ exists evs, DxCtl.delete_project srv = (Ret true, evs)) ->
  exists db' effs, delete_project db srv path_exists id user = (Ret true, db', effs) /\
    find_id db' id = None /\ (forall id', id' <> id -> find_id db' id' = find_id db id') /\
    next_id db' = next_id db /\
    (In (Rmtree (r_code_path r)) effs <->
     r_code_path r <> "" /\ path_exists (r_code_path r) = true) /\
    (forall p, In (Rmtree p) effs -> p = r_code_path r).
Proof.
  intros H Hu Hdx. unfold delete_project, project_authentication. rewrite H, Hu, Nat.eqb_refl.
  assert (Hrm : forall dx, (forall p, ~ In (Rmtree p) dx) ->
    let rm := if negb (String.eqb (r_code_path r) "") && path_exists (r_code_path r)
              then [Rmtree (r_code_path r)] else [] in
    (In (Rmtree (r_code_path r)) (dx ++ rm) <-> r_code_path r <> "" /\ path_exists (r_code_path r) = true) /\
    (forall p, In (Rmtree p) (dx ++ rm) -> p = r_code_path r)).
  { intros dx Hn rm. subst rm.
    destruct (String.eqb_spec (r_code_path r) "") as [E|E]; destruct (path_exists (r_code_path r)) eqn:Ep;
      simpl; rewrite ?app_nil_r; (split; [split|]);
      try (intros Hin; apply in_app_or in Hin as [Hin|Hin]; [exfalso; exact (Hn _ Hin)|]);
      try (intros p Hin; apply in_app_or in Hin as [Hin|Hin]; [exfalso; exact (Hn _ Hin)|]);
      try (intros p Hin; exfalso; exact (Hn _ Hin)); try (intros Hin; exfalso; exact (Hn _ Hin));
      try (intros [Hx Hy]; congruence);
      try (destruct Hin as [Hin|[]]; congruence);
      try (intros _; apply in_or_app; right; left; reflexivity);
      try (destruct Hin as [Hin|[]]; split; [exact E|reflexivity]). }
  assert (Hnd : forall evs p, ~ In (Rmtree p) (map DxRequest evs)).
  { intros evs p Hin. apply in_map_iff in Hin as [x [Hx _]]. discriminate. }
  assert (Hdb : find_id (mkDb (filter (fun x => negb (Nat.eqb (r_id x) id)) (rows db)) (next_id db)) id = None /\
     (forall id', id' <> id -> find_id (mkDb (filter (fun x => negb (Nat.eqb (r_id x) id)) (rows db)) (next_id db)) id'
                              = find_id db id')).
  { split; [apply find_filter_self|]. intros id' Hne. apply find_filter_other, Hne. }
  destruct Hdx as [Ht|[evs Hd]].
  - rewrite Ht. eexists; eexists. split; [reflexivity|]. split; [apply Hdb|]. split; [apply Hdb|].
    split; [reflexivity|]. apply (Hrm []). intros p [].
  - rewrite Hd. destruct (truthy (r_dx_uuid r)).
    + eexists; eexists. split; [reflexivity|]. split; [apply Hdb|]. split; [apply Hdb|].
      split; [reflexivity|]. apply Hrm, Hnd.
    + eexists; eexists. split; [reflexivity|]. split; [apply Hdb|]. split; [apply Hdb|].
      split; [reflexivity|]. apply (Hrm []). intros p [].
Qed.

Lemma delete_success_witness :
  exists db' effs,
    delete_project (mkDb [row1] 2) (fun _ => mkResponse 204 "" None) (fun _ => true) 1 7
      = (Ret true, db', effs) /\
    find_id db' 1 = None /\ (forall id', id' <> 1 -> find_id db' id' = find_id (mkDb [row1] 2) id') /\
    next_id db' = next_id (mkDb [row1] 2) /\
    (In (Rmtree (r_code_path row1)) effs <->
     r_code_path row1 <> "" /\ (fun _ => true) (r_code_path row1) = true) /\
    (forall p, In (Rmtree p) effs -> p = r_code_path row1).
Proof.
  apply (delete_success (mkDb [row1] 2) (fun _ => mkResponse 204 "" None) (fun _ => true) 1 7 row1).
  - reflexivity.
  - reflexivity.
  - right. eexists. vm_compute. reflexivity.
Defined.

End DbExtra.

Module DbInvariant.
Import DxCtl Db DbExtra.

Lemma nodup_map_filter {A B} (f : A -> B) (q : A -> bool) (l : list A) :
  NoDup (map f l) -> NoDup (map f (filter q l)).
Proof.
  induction l as [|x l IH]; simpl; intros H; [constructor|].
  inversion H as [|? ? Hn Hd]; subst. destruct (q x); simpl; [|apply IH, Hd].
  constructor; [|apply IH, Hd]. intros Hin. apply Hn.
  apply in_map_iff in Hin as [y [Hy Hin]]. apply filter_In in Hin as [Hin _].
  rewrite <- Hy. apply in_map, Hin.
Qed.

Lemma wf_filter (db : Db) (q : Row -> bool) :
  wf db -> wf (mkDb (filter q (rows db)) (next_id db)).
Proof.
  intros [Hn Hl]. split; simpl; [apply nodup_map_filter, Hn|].
  intros r Hr. apply filter_In in Hr as [Hr _]. apply Hl, Hr.
Qed.

(** X16: creating, updating and deleting projects keep the autoincrement
    invariant: row ids stay pairwise distinct and below the counter. *)
Theorem db_ops_keep_wf (coll_eq : string -> string -> bool) (strict_mode : bool) (db : Db)
    (name desc lang : string) (user : nat) (file_path u : string) (create_now update_now : nat)
    (id : nat) (s : Z) (msg : option string) (now : nat) (srv : Server)
    (path_exists : string -> bool) :
  wf db ->
  wf (snd (create_sbom_project coll_eq strict_mode db name desc lang user file_path u
             create_now update_now)) /\
  wf (snd (update_project_status strict_mode db id s msg now)) /\
  wf (snd (fst (delete_project db srv path_exists id user))).
Proof.
  intros Hw. split; [|split].
  - unfold create_sbom_project.
    destruct (existsb (fun r => coll_eq (r_project_name r) name) (rows db)); [exact Hw|].
    destruct (varchar strict_mode 64 name) as [n'|]; [|exact Hw].
    destruct (text_col strict_mode desc) as [d'|]; [|exact Hw].
    destruct (varchar strict_mode 64 lang) as [l'|]; [|exact Hw].
    destruct (varchar strict_mode 255 file_path) as [p'|]; [|exact Hw].
    destruct (varchar strict_mode 64 u) as [u'|]; [|exact Hw].
    destruct Hw as [Hn Hl].
    destruct (existsb (fun r => coll_eq (r_project_name r) n') (rows db)); split; simpl.
    + exact Hn.
    + intros r Hr. specialize (Hl r Hr). lia.
    + rewrite map_app. simpl. apply NoDup_app; [exact Hn|repeat constructor; intros []|].
      intros x Hx [<-|[]]. apply in_map_iff in Hx as [r [Hr Hin]]. specialize (Hl r Hin). lia.
    + intros r Hr. apply in_app_or in Hr as [Hr|[<-|[]]]; [specialize (Hl r Hr); lia|simpl; lia].
  - unfold update_project_status.
    destruct (existsb (fun r => Nat.eqb (r_id r) id) (rows db)); [|exact Hw].
    destruct (opt_text strict_mode msg) as [m|]; [|exact Hw].
    destruct Hw as [Hn Hl]. simpl.
    assert (Hf : forall r, r_id (set_status id s m now r) = r_id r).
    { intros r. unfold set_status. destruct (Nat.eqb (r_id r) id); reflexivity. }
    split; simpl.
    + rewrite map_map. erewrite map_ext; [exact Hn|]. exact Hf.
    + intros r Hr. apply in_map_iff in Hr as [r0 [<- Hr0]]. rewrite Hf. apply Hl, Hr0.
  - unfold delete_project.
    destruct (project_authentication db id user); [|exact Hw].
    destruct (find_id db id) as [row|]; [|exact Hw].
    destruct (if truthy (r_dx_uuid row) then DxCtl.delete_project srv else (Ret true, [])) as [[b|e] evs];
      simpl; [apply wf_filter, Hw|exact Hw].
Qed.

Lemma db_ops_keep_wf_witness :
  wf (snd (create_sbom_project String.eqb true (mkDb [row1] 2) "blog" "d" "python" 7 "/data/sbom/b"
             "u-2" 200 200)) /\
  wf (snd (update_project_status true (mkDb [row1] 2) 1 3 None 300)) /\
  wf (snd (fst (delete_project (mkDb [row1] 2) (fun _ => mkResponse 204 "" None) (fun _ => true) 1 7))).
Proof.
  apply db_ops_keep_wf. split; simpl.
  - repeat constructor. intros [].
  - intros r [<-|[]]. simpl. lia.
Defined.

End DbInvariant.

Module ApiProofs.
Import DxCtl Api.

Lemma has_char_app (c : ascii) (a b : string) :
  has_char c (a ++ b) = has_char c a || has_char c b.
Proof. induction a as [|x a IH]; simpl; [reflexivity|]. rewrite IH. apply orb_assoc. Qed.

Lemma str_app_assoc (a b c : string) : ((a ++ b) ++ c = a ++ (b ++ c))%string.
Proof. induction a as [|x a IH]; simpl; [reflexivity|]. rewrite IH. reflexivity. Qed.

Lemma str_app_cancel (a b c : string) : (a ++ b = a ++ c)%string -> b = c.
Proof. induction a as [|x a IH]; simpl; [tauto|]. intros H. injection H. exact IH. Qed.

Lemma replace_char_gone (c d : ascii) (s : string) :
  c <> d -> has_char c (replace_char c d s) = false.
Proof.
  intros Hcd. induction s as [|x s IH]; simpl; [reflexivity|]. rewrite IH, orb_false_r.
  unfold char_eqb. destruct (Ascii.eqb_spec x c) as [->|Hx]; apply Ascii.eqb_neq; congruence.
Qed.

Lemma split_on_keeps_out (sep c : ascii) (s x : string) :
  has_char c s = false -> In x (Env.split_on sep s) -> has_char c x = false.
Proof.
  revert x. induction s as [|y s IH]; simpl; intros x Hs Hx.
  - destruct Hx as [<-|[]]. reflexivity.
  - apply orb_false_iff in Hs as [Hy Hs]. destruct (Ascii.eqb y sep).
    + destruct Hx as [<-|Hx]; [reflexivity|]. apply IH; assumption.
    + destruct (Env.split_on sep s) as [|w ws] eqn:E;
        [exfalso; exact (EnvProofs.split_on_nil sep s E)|].
      destruct Hx as [<-|Hx].
      * simpl. rewrite Hy. apply IH; [exact Hs|]. left. reflexivity.
      * apply IH; [exact Hs|]. right. exact Hx.
Qed.

Lemma concat_keeps_out (c : ascii) (sep : string) (l : list string) :
  has_char c sep = false -> (forall x, In x l -> has_char c x = false) ->
  has_char c (String.concat sep l) = false.
Proof.
  intros Hs. induction l as [|x l IH]; intros H; [reflexivity|].
  destruct l as [|y l]; [apply H; left; reflexivity|].
  change (String.concat sep (x :: y :: l)) with (x ++ sep ++ String.concat sep (y :: l))%string.
  rewrite !has_char_app, H, Hs, IH; [reflexivity|..];
    first [left; reflexivity | intros z Hz; apply H; right; exact Hz].
Qed.

Lemma in_removelast {A} (x : A) (l : list A) : In x (removelast l) -> In x l.
Proof.
  induction l as [|y l IH]; simpl; [tauto|].
  destruct l as [|z l]; [intros []|]. intros [<-|Hx]; [left; reflexivity|right; apply IH, Hx].
Qed.

Lemma prefix_slash (s : string) : has_char "/"%char s = false -> String.prefix "/" s = false.
Proof.
  destruct s as [|c s]; [reflexivity|]. intros H.
  change (char_eqb "/" c || has_char "/" s = false) in H. apply orb_false_iff in H as [H _].
  change (match ascii_dec "/" c with left _ => String.prefix "" s | right _ => false end = false).
  unfold char_eqb in H. destruct (ascii_dec "/" c) as [E|_]; [|reflexivity].
  rewrite <- E, Ascii.eqb_refl in H. discriminate.
Qed.

Lemma components_single (s : string) :
  has_char "/"%char s = false -> components s = if keep_component s then [s] else [].
Proof.
  intros H. unfold components. rewrite PipelineExtra.split_slash_on, EnvProofs.split_on_nosep by exact H.
  simpl. destruct (keep_component s); reflexivity.
Qed.

(** What an accepted upload name is made of. *)
Lemma upload_names_spec (raw fn hint : string) :
  upload_names raw = Some (fn, hint) ->
  has_char "."%char fn = true /\ has_char "/"%char fn = false /\ fn <> "." /\ fn <> ".." /\
  has_char "/"%char hint = false.
Proof.
  unfold upload_names. set (f := _safe_filename raw).
  assert (Hsl : has_char "/"%char f = false) by (apply replace_char_gone; discriminate).
  intros H. destruct (has_char "."%char f) eqn:Hd; cbv beta iota zeta delta [negb] in H; [|discriminate H].
  destruct (existsb (String.eqb (Registry.lower (snd (rsplit_dot f)))) _ALLOWED_ARCHIVE_SUFFIX) eqn:Hx;
    cbv beta iota delta [negb] in H; [|discriminate H].
  injection H as <- <-. split; [exact Hd|]. split; [exact Hsl|].
  split; [intros E; rewrite E in Hx; vm_compute in Hx; discriminate|].
  split; [intros E; rewrite E in Hx; vm_compute in Hx; discriminate|].
  unfold rsplit_dot. simpl. apply concat_keeps_out; [reflexivity|].
  intros x Hin. apply in_removelast in Hin. exact (split_on_keeps_out _ _ _ _ Hsl Hin).
Qed.

Lemma upload_path_single (raw fn hint : string) (root : path) :
  upload_names raw = Some (fn, hint) -> path_join root fn = root ++ [fn].
Proof.
  intros H. destruct (upload_names_spec raw fn hint H) as (Hd & Hsl & H1 & H2 & _).
  unfold path_join. rewrite prefix_slash, components_single by exact Hsl.
  unfold keep_component.
  destruct (String.eqb_spec fn "") as [E|_]; [rewrite E in Hd; discriminate|].
  destruct (String.eqb_spec fn ".") as [E|_]; [contradiction|]. reflexivity.
Qed.

Lemma is_prefix_app (a b : path) : is_prefix a (a ++ b) = true.
Proof. induction a as [|x a IH]; simpl; [reflexivity|]. rewrite String.eqb_refl, IH. reflexivity. Qed.

Lemma norm_aux_snoc (h : string) : forall l st,
  h <> ".." -> norm_aux st (l ++ [h]) = norm_aux st l ++ [h].
Proof.
  induction l as [|c l IH]; intros st Hh; simpl.
  - destruct (String.eqb_spec h "..") as [E|_]; [contradiction|]. reflexivity.
  - destruct (String.eqb c ".."); apply IH, Hh.
Qed.

Lemma path_str_app (a b : path) : Pipeline.path_str (a ++ b) = (Pipeline.path_str a ++ Pipeline.path_str b)%string.
Proof.
  unfold Pipeline.path_str. induction a as [|x a IH]; cbn [fold_right app]; [reflexivity|].
  rewrite IH, !str_app_assoc. reflexivity.
Qed.

End ApiProofs.

Module ApiExtra.
Import DxCtl Api ApiProofs.

(** X17: an accepted upload is saved directly in the upload root: its
    sanitised file name is a single path component, neither "." nor "..",
    whatever the client sent as file name. *)
Theorem upload_saved_in_root (raw fn hint : string) (sbom_root : path) :
  upload_names raw = Some (fn, hint) ->
  path_join sbom_root fn = sbom_root ++ [fn] /\ fn <> "" /\ fn <> "." /\ fn <> ".." /\
  has_char "/"%char fn = false.
Proof.
  intros H. destruct (upload_names_spec raw fn hint H) as (Hd & Hsl & H1 & H2 & _).
  split; [exact (upload_path_single raw fn hint sbom_root H)|].
  split; [intros E; rewrite E in Hd; discriminate|]. auto.
Qed.

Lemma upload_saved_in_root_witness :
  upload_names "../../etc/cron.d/x.tar" = Some ("x.tar", "x") /\
  path_join ["data"; "sbom"] "x.tar" = ["data"; "sbom"] ++ ["x.tar"] /\ "x.tar" <> "" /\
  "x.tar" <> "." /\ "x.tar" <> ".." /\ has_char "/"%char "x.tar" = false.
Proof.
  split; [vm_compute; reflexivity|].
  apply (upload_saved_in_root "../../etc/cron.d/x.tar" "x.tar" "x" ["data"; "sbom"]).
  vm_compute. reflexivity.
Defined.

(** X18: the root hint an accepted upload passes to the pipeline (the file
    name without its extension) contains no "/", so [extract_dir / hint]
    stays inside the extraction directory, except when the hint is ".."
    (an upload named "...zip" or "...tar"), which names its parent. *)
Theorem upload_hint_within (raw fn hint : string) (d : path) :
  upload_names raw = Some (fn, hint) ->
  hint = ".." \/ _is_within_directory d (path_join d hint) = true.
Proof.
  intros H. destruct (upload_names_spec raw fn hint H) as (_ & _ & _ & _ & Hsl).
  unfold path_join. rewrite prefix_slash, components_single by exact Hsl.
  unfold _is_within_directory, resolve.
  destruct (keep_component hint) eqn:Hk.
  - destruct (String.eqb_spec hint "..") as [E|E]; [left; exact E|right].
    rewrite filter_app. simpl filter. rewrite Hk, norm_aux_snoc by exact E. apply is_prefix_app.
  - right. rewrite app_nil_r. rewrite <- (app_nil_r (norm_aux [] (filter keep_component d))) at 2.
    apply is_prefix_app.
Qed.

Lemma upload_hint_within_witness :
  upload_names "...zip" = Some ("...zip", "..") /\
  _is_within_directory ["srv"; "job"] (path_join ["srv"; "job"] "..") = false /\
  (".." = ".." \/ _is_within_directory ["srv"; "job"] (path_join ["srv"; "job"] "..") = true).
Proof.
  split; [vm_compute; reflexivity|]. split; [vm_compute; reflexivity|].
  apply (upload_hint_within "...zip" "...zip" ".." ["srv"; "job"]). vm_compute. reflexivity.
Defined.

(** X19: the endpoint checks the project name only after it has created the
    DX project and saved the upload: with a duplicate name it raises the
    duplicate-name error, the table is unchanged, and the DX requests and the
    saved file remain (no DX deletion, no background pipeline). *)
Theorem duplicate_name_after_side_effects (coll_eq : string -> string -> bool) (strict_mode : bool)
    (db : Db.Db) (srv : Server) (sbom_root : path) (create_now update_now : nat) (dx_project_name project_name project_desc code_language
    raw fn hint u : string) (evs : list HttpEvent) :
  existsb (String.eqb code_language) _ALONE_LANGUAGE = true ->
  upload_names raw = Some (fn, hint) ->
  DxCtl.create_project srv = (Ret u, evs) ->
  existsb (fun r => coll_eq (Db.r_project_name r) project_name) (Db.rows db) = true ->
  create_sbom_project coll_eq strict_mode db srv sbom_root create_now update_now dx_project_name
    project_name project_desc code_language raw
  = (Raise "项目名称重复，请重新输入", db, map DxRequest evs ++ [SaveUpload (sbom_root ++ [fn])]).
Proof.
  intros Hl Hu Hc Hd. unfold create_sbom_project. rewrite Hl. cbv beta iota delta [negb].
  rewrite Hu, Hc. unfold Db.create_sbom_project. rewrite Hd.
  rewrite (upload_path_single raw fn hint sbom_root Hu). reflexivity.
Qed.

Definition dup_row : Db.Row :=
  Db.mkRow 1 "Shop" "" "java" "/data/sbom/a" 100 100 0 3 (Some "u-1") None.

Lemma duplicate_name_after_side_effects_witness :
  create_sbom_project (fun a b => String.eqb (Registry.lower a) (Registry.lower b)) true
    (Db.mkDb [dup_row] 2) (fun _ => mkResponse 201 "" (Some "u-9")) ["data"; "sbom"] 200 200
    "f00d" "shop" "" "java" "shop.zip"
  = (Raise "项目名称重复，请重新输入", Db.mkDb [dup_row] 2,
     map DxRequest [HttpPut] ++ [SaveUpload (["data"; "sbom"] ++ ["shop.zip"])]).
Proof.
  apply (duplicate_name_after_side_effects _ _ _ _ _ _ _ _ _ _ _ _ "shop.zip" "shop" "u-9");
    vm_compute; reflexivity.
Defined.

Lemma varchar_whole (strict_mode : bool) (w : nat) (s v : string) :
  Db.varchar strict_mode w s = Some v -> strict_mode = true \/ py_len s <= w -> v = s.
Proof.
  unfold Db.varchar. destruct (Nat.leb_spec (py_len s) w) as [Hl|Hl].
  - intros E _. injection E as <-. reflexivity.
  - destruct strict_mode; [discriminate|]. intros _ [H|H]; [discriminate|lia].
Qed.

Lemma delete_rmtree_only (db : Db.Db) (srv : Server) (pe : string -> bool) (id user : nat)
    res db' effs p :
  Db.delete_project db srv pe id user = (res, db', effs) -> In (Db.Rmtree p) effs ->
  exists r, Db.find_id db id = Some r /\ p = Db.r_code_path r.
Proof.
  unfold Db.delete_project.
  destruct (Db.project_authentication db id user); [|intros E; injection E as _ _ <-; intros []].
  destruct (Db.find_id db id) as [r|] eqn:Ef; [|intros E; injection E as _ _ <-; intros []].
  destruct (if Db.truthy (Db.r_dx_uuid r) then DxCtl.delete_project srv else (Ret true, []))
    as [[b|e] evs].
  - intros E; injection E as _ _ <-. intros Hin. apply in_app_or in Hin as [Hin|Hin].
    + apply in_map_iff in Hin as [x [Hx _]]. discriminate.
    + destruct (negb (String.eqb (Db.r_code_path r) "") && pe (Db.r_code_path r)); [|destruct Hin].
      destruct Hin as [Hin|[]]. injection Hin as <-. exists r. split; reflexivity.
  - intros E; injection E as _ _ <-. intros Hin. apply in_map_iff in Hin as [x [Hx _]]. discriminate.
Qed.

(** X20: deleting a project created through the upload endpoint removes
    at most its extraction directory [<upload root>/<dx_project_name>] and
    never the uploaded archive saved beside it, provided the generated
    [dx_project_name] contains no "." or "/" (as a [uuid4().hex] does)
    and the directory's path is stored whole: it fits the 255 characters
    of [code_path], or the server is in strict mode (where a longer path
    fails the insert; otherwise the stored path is cut). *)
Theorem delete_keeps_uploaded_archive (coll_eq : string -> string -> bool) (strict_mode : bool)
    (db : Db.Db) (srv : Server) (sbom_root : path) (create_now update_now : nat)
    (dx_project_name project_name project_desc code_language
    raw : string) (id : nat) (u : string) (db' : Db.Db) (effs : list Effect)
    (srv2 : Server) (path_exists : string -> bool) (user : nat) :
  (forall r, In r (Db.rows db) -> Db.r_id r < Db.next_id db) ->
  has_char "."%char dx_project_name = false -> has_char "/"%char dx_project_name = false ->
  strict_mode = true \/ py_len (Pipeline.path_str (path_join sbom_root dx_project_name)) <= 255 ->
  create_sbom_project coll_eq strict_mode db srv sbom_root create_now update_now dx_project_name
    project_name project_desc code_language raw = (Ret (Success id u), db', effs) ->
  exists fn, In (SaveUpload (sbom_root ++ [fn])) effs /\
    forall res db'' effs2, Db.delete_project db' srv2 path_exists id user = (res, db'', effs2) ->
      (forall p, In (Db.Rmtree p) effs2 -> p = Pipeline.path_str (path_join sbom_root dx_project_name)) /\
      ~ In (Db.Rmtree (Pipeline.path_str (sbom_root ++ [fn]))) effs2.
Proof.
  intros Hlt Hdot Hsl Hfit H. unfold create_sbom_project in H.
  destruct (negb (existsb (String.eqb code_language) _ALONE_LANGUAGE)); [discriminate H|].
  destruct (upload_names raw) as [[fn hint]|] eqn:Hu; [|discriminate H].
  destruct (DxCtl.create_project srv) as [[u0|e] evs]; [|discriminate H].
  unfold Db.create_sbom_project in H.
  destruct (existsb (fun r => coll_eq (Db.r_project_name r) project_name) (Db.rows db)); [discriminate H|].
  destruct (Db.varchar strict_mode 64 project_name) as [n'|]; [|discriminate H].
  destruct (Db.text_col strict_mode project_desc) as [d'|]; [|discriminate H].
  destruct (Db.varchar strict_mode 64 code_language) as [l'|]; [|discriminate H].
  destruct (Db.varchar strict_mode 255 (Pipeline.path_str (path_join sbom_root dx_project_name)))
    as [p'|] eqn:Hp'; [|discriminate H].
  apply varchar_whole in Hp'; [|exact Hfit]. subst p'.
  destruct (Db.varchar strict_mode 64 u0) as [u'|]; [|discriminate H].
  destruct (existsb (fun r => coll_eq (Db.r_project_name r) n') (Db.rows db)); [discriminate H|].
  injection H as <- <- <- <-.
  exists fn. split.
  { rewrite (upload_path_single raw fn hint sbom_root Hu).
    apply in_or_app. left. apply in_or_app. right. left. reflexivity. }
  intros res db'' effs2 Hdel.
  assert (Hp : forall p, In (Db.Rmtree p) effs2 -> p = Pipeline.path_str (path_join sbom_root dx_project_name)).
  { intros p Hin. destruct (delete_rmtree_only _ _ _ _ _ _ _ _ _ Hdel Hin) as [r [Hf ->]].
    unfold Db.find_id in Hf. simpl in Hf. rewrite DbExtra.find_app_skip in Hf.
    - simpl in Hf. rewrite Nat.eqb_refl in Hf. injection Hf as <-. reflexivity.
    - intros x Hx. apply Nat.eqb_neq. specialize (Hlt x Hx). lia. }
  split; [exact Hp|]. intros Hin. apply Hp in Hin.
  unfold path_join in Hin. rewrite prefix_slash, components_single in Hin by exact Hsl.
  rewrite !path_str_app in Hin. apply str_app_cancel in Hin.
  destruct (upload_names_spec raw fn hint Hu) as (Hd & _).
  destruct (keep_component dx_project_name); [|discriminate Hin].
  cbn in Hin. injection Hin as Hin. rewrite !SupervisorProofs.str_app_nil_r in Hin.
  rewrite Hin in Hd. rewrite Hd in Hdot. discriminate.
Qed.

Lemma delete_keeps_uploaded_archive_witness :
  exists fn, In (SaveUpload (["data"; "sbom"] ++ [fn]))
      (snd (create_sbom_project String.eqb true (Db.mkDb [] 1) (fun _ => mkResponse 201 "" (Some "u-9"))
              ["data"; "sbom"] 200 200 "f00d" "shop" "" "java" "shop.zip")) /\
    forall res db'' effs2,
      Db.delete_project (snd (fst (create_sbom_project String.eqb true (Db.mkDb [] 1)
          (fun _ => mkResponse 201 "" (Some "u-9")) ["data"; "sbom"] 200 200 "f00d" "shop" "" "java"
          "shop.zip")))
        (fun _ => mkResponse 204 "" None) (fun _ => true) 1 0 = (res, db'', effs2) ->
      (forall p, In (Db.Rmtree p) effs2 -> p = Pipeline.path_str (path_join ["data"; "sbom"] "f00d")) /\
      ~ In (Db.Rmtree (Pipeline.path_str (["data"; "sbom"] ++ [fn]))) effs2.
Proof.
  apply (delete_keeps_uploaded_archive String.eqb true (Db.mkDb [] 1)
           (fun _ => mkResponse 201 "" (Some "u-9")) ["data"; "sbom"] 200 200
           "f00d" "shop" "" "java" "shop.zip" 1 "u-9").
  - intros r [].
  - reflexivity.
  - reflexivity.
  - left. reflexivity.
  - vm_compute. reflexivity.
Defined.

End ApiExtra.
